(** * react-native-wheel-scrollview-picker: the ScrollPicker component

    A shallow embedding of the two revisions of the component that the
    repository holds ([src/index.tsx], the older one, and
    [src/unnamed/part_000], the newer one with [changeValueWhileDragging]
    and press-to-scroll), and the properties of its scroll snapping, its
    drag / momentum / programmatic-scroll flags, its debounce timer and its
    sizing fallbacks.

    Numbers.  The component is embedded over [number]: an exact rational
    extended with [NaN] and the two infinities.  The rounding of binary64
    arithmetic and the sign of zero are not part of [number]: a finite
    result is the exact rational one, returned in lowest terms, so equal
    results are equal terms.  What is proved over [number] for all inputs
    is therefore the control flow of the code around its arithmetic; a
    property that needs the arithmetic itself either takes what it needs
    as a hypothesis, or is settled in [Binary64], where the arithmetic of
    [scrollFix] is written over the kernel's binary64 floats.

    React.  A handler reads the state of the render that created it and
    queues its updates.  A handler is therefore a function from the
    rendered state and the live state to the next state and the list of
    effects it issues.  The callback handed to [setTimeout] carries the
    render it captured.  [step] renders the component again before every
    event, so the rendered state is the live one; [dispatch] and [frame]
    deliver several events to the handlers of one render. *)

From Stdlib Require Import ZArith QArith Qround Qreduction Qabs Lqa Lia.
From Stdlib Require Import List String Ascii Bool DecimalString.
From Stdlib Require Floats.PrimFloat Floats.SpecFloat Floats.FloatOps.
Import ListNotations.

Set Implicit Arguments.

(* ================================================================== *)
(** ** JavaScript numbers *)
(* ================================================================== *)

Inductive number : Type :=
| Fin (q : Q)
| NaN
| PosInfinity
| NegInfinity.

Definition num (z : Z) : number := Fin (inject_Z z).

(** The infinity (or NaN) that a sign selects. *)
Definition signed_infinity (c : comparison) : number :=
  match c with
  | Gt => PosInfinity
  | Lt => NegInfinity
  | Eq => NaN
  end.

Definition flip (c : comparison) : comparison := CompOpp c.

(** [a + b] *)
Definition js_add (a b : number) : number :=
  match a, b with
  | NaN, _ | _, NaN => NaN
  | Fin x, Fin y => Fin (Qred (x + y))
  | PosInfinity, NegInfinity | NegInfinity, PosInfinity => NaN
  | PosInfinity, _ | _, PosInfinity => PosInfinity
  | NegInfinity, _ | _, NegInfinity => NegInfinity
  end.

(** [a - b] *)
Definition js_sub (a b : number) : number :=
  match a, b with
  | NaN, _ | _, NaN => NaN
  | Fin x, Fin y => Fin (Qred (x - y))
  | PosInfinity, PosInfinity | NegInfinity, NegInfinity => NaN
  | PosInfinity, _ | _, NegInfinity => PosInfinity
  | NegInfinity, _ | _, PosInfinity => NegInfinity
  end.

(** [a * b] *)
Definition js_mul (a b : number) : number :=
  match a, b with
  | NaN, _ | _, NaN => NaN
  | Fin x, Fin y => Fin (Qred (x * y))
  | Fin x, PosInfinity | PosInfinity, Fin x => signed_infinity (x ?= 0)
  | Fin x, NegInfinity | NegInfinity, Fin x => signed_infinity (flip (x ?= 0))
  | PosInfinity, PosInfinity | NegInfinity, NegInfinity => PosInfinity
  | PosInfinity, NegInfinity | NegInfinity, PosInfinity => NegInfinity
  end.

(** [a / b].  A zero divisor counts as [+0]. *)
Definition js_div (a b : number) : number :=
  match a, b with
  | NaN, _ | _, NaN => NaN
  | Fin x, Fin y =>
      if Qeq_bool y 0 then signed_infinity (x ?= 0) else Fin (Qred (x / y))
  | Fin _, (PosInfinity | NegInfinity) => Fin 0
  | PosInfinity, Fin y => if Qle_bool 0 y then PosInfinity else NegInfinity
  | NegInfinity, Fin y => if Qle_bool 0 y then NegInfinity else PosInfinity
  | (PosInfinity | NegInfinity), (PosInfinity | NegInfinity) => NaN
  end.

(** [a === b] on numbers: NaN equals nothing, itself included. *)
Definition strict_eq (a b : number) : bool :=
  match a, b with
  | Fin x, Fin y => Qeq_bool x y
  | PosInfinity, PosInfinity | NegInfinity, NegInfinity => true
  | _, _ => false
  end.

(** [a < b] *)
Definition js_lt (a b : number) : bool :=
  match a, b with
  | NaN, _ | _, NaN => false
  | Fin x, Fin y => negb (Qle_bool y x)
  | NegInfinity, (Fin _ | PosInfinity) => true
  | Fin _, PosInfinity => true
  | _, _ => false
  end.

(** [a <= b] *)
Definition js_le (a b : number) : bool :=
  match a, b with
  | NaN, _ | _, NaN => false
  | Fin x, Fin y => Qle_bool x y
  | NegInfinity, _ | _, PosInfinity => true
  | _, _ => false
  end.

(** [Math.round]: to the nearest integer, a half going up. *)
Definition Math_round (a : number) : number :=
  match a with
  | Fin x => num (Qfloor (x + (1 # 2)))
  | other => other
  end.

(** [Math.max] and [Math.min] of two arguments: NaN if either is. *)
Definition Math_max (a b : number) : number :=
  match a, b with
  | NaN, _ | _, NaN => NaN
  | _, _ => if js_lt a b then b else a
  end.

Definition Math_min (a b : number) : number :=
  match a, b with
  | NaN, _ | _, NaN => NaN
  | _, _ => if js_lt b a then b else a
  end.

(** Truthiness of a number: [0] and [NaN] are falsy. *)
Definition truthy (a : number) : bool :=
  match a with
  | Fin x => negb (Qeq_bool x 0)
  | NaN => false
  | PosInfinity | NegInfinity => true
  end.

(** [a || b] on numbers. *)
Definition js_or (a b : number) : number := if truthy a then a else b.

(** [data[i]]: the element when [i] is the index of one, [undefined]
    ([None]) for every other number. *)
Definition array_get (T : Type) (data : list T) (i : number) : option T :=
  match i with
  | Fin x =>
      if Qeq_bool x (inject_Z (Qfloor x)) && (0 <=? Qfloor x)%Z
      then nth_error data (Z.to_nat (Qfloor x))
      else None
  | _ => None
  end.

(** [data.length] *)
Definition array_length (T : Type) (data : list T) : number :=
  num (Z.of_nat (List.length data)).

Definition js_neg (a : number) : number :=
  match a with
  | Fin x => Fin (Qred (- x))
  | NaN => NaN
  | PosInfinity => NegInfinity
  | NegInfinity => PosInfinity
  end.

Definition is_nan (a : number) : bool :=
  match a with
  | NaN => true
  | _ => false
  end.

(* ================================================================== *)
(** ** Strings as numbers: [Number(string)] and [parseFloat]

    The StringNumericLiteral grammar of ECMAScript:
    white space is trimmed, the empty string is [0] for [Number] and [NaN]
    for [parseFloat]; a decimal literal has an optional sign, digits with an
    optional fraction and exponent, or is [Infinity]; [Number] also reads
    the unsigned [0x], [0o] and [0b] integers and rejects trailing text,
    [parseFloat] reads the longest decimal prefix. *)
(* ================================================================== *)

Definition code (c : ascii) : Z := Z.of_nat (nat_of_ascii c).

Definition is_char (c : ascii) (s : string) : bool :=
  match s with
  | String d EmptyString => Ascii.eqb c d
  | _ => false
  end.

(** WhiteSpace and LineTerminator, the code points that [trim] and the
    number grammar strip.  Text is held as UTF-8 bytes, so a code point is
    one byte (tab to carriage return, space), two (U+00A0) or three
    (U+1680, U+2000 to U+200A, U+2028, U+2029, U+202F, U+205F, U+3000,
    U+FEFF). *)
Definition is_whitespace (c : ascii) : bool :=
  let n := code c in
  ((9 <=? n) && (n <=? 13) || (n =? 32))%Z.

Definition is_whitespace2 (c1 c2 : ascii) : bool :=
  ((code c1 =? 194) && (code c2 =? 160))%Z.

Definition is_whitespace3 (c1 c2 c3 : ascii) : bool :=
  let a := code c1 in
  let b := code c2 in
  let c := code c3 in
  ((a =? 225) && (b =? 154) && (c =? 128)
   || (a =? 226) && (b =? 128)
      && ((128 <=? c) && (c <=? 138) || (c =? 168) || (c =? 169) || (c =? 175))
   || (a =? 226) && (b =? 129) && (c =? 159)
   || (a =? 227) && (b =? 128) && (c =? 128)
   || (a =? 239) && (b =? 187) && (c =? 191))%Z.

Fixpoint trim_start (l : list ascii) : list ascii :=
  match l with
  | c1 :: r1 =>
      if is_whitespace c1 then trim_start r1
      else
        match r1 with
        | c2 :: r2 =>
            if is_whitespace2 c1 c2 then trim_start r2
            else
              match r2 with
              | c3 :: r3 =>
                  if is_whitespace3 c1 c2 c3 then trim_start r3 else l
              | [] => l
              end
        | [] => l
        end
  | [] => []
  end.

(** [trim_start] from the other end: [l] is the text read backwards. *)
Fixpoint trim_end (l : list ascii) : list ascii :=
  match l with
  | c1 :: r1 =>
      if is_whitespace c1 then trim_end r1
      else
        match r1 with
        | c2 :: r2 =>
            if is_whitespace2 c2 c1 then trim_end r2
            else
              match r2 with
              | c3 :: r3 =>
                  if is_whitespace3 c3 c2 c1 then trim_end r3 else l
              | [] => l
              end
        | [] => l
        end
  | [] => []
  end.

Definition trim (l : list ascii) : list ascii :=
  rev (trim_end (rev (trim_start l))).

Definition digit_value (radix : Z) (c : ascii) : option Z :=
  let n := code c in
  let v :=
    if ((48 <=? n) && (n <=? 57))%Z then Some (n - 48)%Z
    else if ((97 <=? n) && (n <=? 102))%Z then Some (n - 87)%Z
    else if ((65 <=? n) && (n <=? 70))%Z then Some (n - 55)%Z
    else None in
  match v with
  | Some d => if (d <? radix)%Z then Some d else None
  | None => None
  end.

(** The longest run of digits at the head of [l]: its value on top of
    [acc], how many digits it has, and the text after it. *)
Fixpoint digits (radix : Z) (l : list ascii) (acc : Z) (count : nat)
  : Z * nat * list ascii :=
  match l with
  | c :: r =>
      match digit_value radix c with
      | Some d => digits radix r (radix * acc + d)%Z (S count)
      | None => (acc, count, l)
      end
  | [] => (acc, count, [])
  end.

Fixpoint strip_prefix (pre l : list ascii) : option (list ascii) :=
  match pre, l with
  | [], _ => Some l
  | a :: pre', b :: l' => if Ascii.eqb a b then strip_prefix pre' l' else None
  | _ :: _, [] => None
  end.

(** The least magnitude that binary64 rounds to an infinity, and the
    greatest that it rounds to zero. *)
Definition overflow_threshold : Q :=
  inject_Z (2 ^ 1024 - 2 ^ 970).

Definition underflow_threshold : Q :=
  Qpower (inject_Z 2) (-1075).

(** [m * 10^e] for [0 <= m], within the range of binary64. *)
Definition decimal (m e : Z) : number :=
  let v := inject_Z m * Qpower (inject_Z 10) e in
  if Qle_bool overflow_threshold v then PosInfinity
  else if Qle_bool v underflow_threshold then num 0
  else Fin (Qred v).

(** ExponentPart, when one is there: the exponent and the text after it. *)
Definition exponent_part (l : list ascii) : Z * list ascii :=
  match l with
  | c :: r =>
      if is_char c "e" || is_char c "E" then
        let '(sgn, r1) :=
          match r with
          | s :: r' =>
              if is_char s "+" then (1%Z, r')
              else if is_char s "-" then ((-1)%Z, r')
              else (1%Z, r)
          | [] => (1%Z, r)
          end in
        let '(e, n, r2) := digits 10 r1 0 0 in
        match n with
        | O => (0%Z, l)
        | S _ => ((sgn * e)%Z, r2)
        end
      else (0%Z, l)
  | [] => (0%Z, l)
  end.

(** StrUnsignedDecimalLiteral at the head of [l]. *)
Definition unsigned_decimal (l : list ascii) : option (number * list ascii) :=
  match strip_prefix (list_ascii_of_string "Infinity") l with
  | Some r => Some (PosInfinity, r)
  | None =>
      let '(i, ni, r1) := digits 10 l 0 0 in
      match r1 with
      | c :: r1' =>
          if is_char c "." then
            let '(f, nf, r2) := digits 10 r1' i 0 in
            if Nat.eqb (ni + nf) 0 then None
            else
              let '(e, r3) := exponent_part r2 in
              Some (decimal f (e - Z.of_nat nf), r3)
          else if Nat.eqb ni 0 then None
          else let '(e, r3) := exponent_part r1 in Some (decimal i e, r3)
      | [] => if Nat.eqb ni 0 then None else Some (decimal i 0, [])
      end
  end.

(** StrDecimalLiteral at the head of [l]. *)
Definition decimal_literal (l : list ascii) : option (number * list ascii) :=
  match l with
  | c :: r =>
      if is_char c "+" then unsigned_decimal r
      else if is_char c "-" then
        match unsigned_decimal r with
        | Some (v, rest) => Some (js_neg v, rest)
        | None => None
        end
      else unsigned_decimal l
  | [] => None
  end.

(** NonDecimalIntegerLiteral, the whole of [l]. *)
Definition non_decimal_literal (l : list ascii) : option number :=
  match l with
  | z :: c :: r =>
      if is_char z "0" then
        let radix :=
          if is_char c "x" || is_char c "X" then Some 16%Z
          else if is_char c "o" || is_char c "O" then Some 8%Z
          else if is_char c "b" || is_char c "B" then Some 2%Z
          else None in
        match radix with
        | Some rx =>
            match digits rx r 0 0 with
            | (v, S _, []) => Some (num v)
            | _ => None
            end
        | None => None
        end
      else None
  | _ => None
  end.

(** [Number(s)] for a string [s]. *)
Definition StringToNumber (s : string) : number :=
  match trim (list_ascii_of_string s) with
  | [] => num 0
  | l =>
      match non_decimal_literal l with
      | Some v => v
      | None =>
          match decimal_literal l with
          | Some (v, []) => v
          | _ => NaN
          end
      end
  end.

(** [parseFloat(s)] for a string [s]. *)
Definition parseFloat (s : string) : number :=
  match decimal_literal (trim_start (list_ascii_of_string s)) with
  | Some (v, _) => v
  | None => NaN
  end.

(* ================================================================== *)
(** ** The values a style property holds *)
(* ================================================================== *)

(** A property of a style object: [DimensionValue] is a number, a string
    ('auto', '50%'), null, undefined or an animated node (an object). *)
Inductive JSValue : Type :=
| VUndefined
| VNull
| VBoolean (b : bool)
| VNumber (n : number)
| VString (s : string)
| VObject.

(** ToNumber, which [Number(v)] and [isNaN(v)] apply.  An object would go
    through ToPrimitive, which is not modelled: the component converts a
    value only after [isNumeric] has found a number or a string. *)
Definition Number_ (v : JSValue) : number :=
  match v with
  | VUndefined => NaN
  | VNull => num 0
  | VBoolean b => if b then num 1 else num 0
  | VNumber n => n
  | VString s => StringToNumber s
  | VObject => NaN
  end.

Definition isNaN (v : JSValue) : bool := is_nan (Number_ v).

(** ToBoolean *)
Definition ToBoolean (v : JSValue) : bool :=
  match v with
  | VUndefined | VNull => false
  | VBoolean b => b
  | VNumber n => truthy n
  | VString s => negb (String.eqb s EmptyString)
  | VObject => true
  end.

Definition StyleObject : Type := list (string * JSValue).

(** [ViewProps['style']]: a style object, an array of styles, a registered
    style number, or null, undefined or false. *)
Inductive StyleProp : Type :=
| StyleUndefined
| StyleNull
| StyleFalse
| StyleRegistered (id : number)
| StylePlain (fields : StyleObject)
| StyleArray (items : list StyleObject).

(** [o[name]]: the value bound to the key, [undefined] without one. *)
Fixpoint get_property (fields : StyleObject) (name : string) : JSValue :=
  match fields with
  | (k, v) :: rest => if String.eqb k name then v else get_property rest name
  | [] => VUndefined
  end.

(** The text of a natural number, the key of an array element. *)
Definition index_key (n : nat) : string :=
  NilEmpty.string_of_uint (Nat.to_uint n).

(** [Object.keys(style)], for a style whose [typeof] is 'object' and which
    is not null. *)
Definition Object_keys (style : StyleProp) : list string :=
  match style with
  | StylePlain fields => map fst fields
  | StyleArray items => map index_key (seq 0 (List.length items))
  | _ => []
  end.

Definition typeof_is_object (style : StyleProp) : bool :=
  match style with
  | StyleNull | StylePlain _ | StyleArray _ => true
  | StyleUndefined | StyleFalse | StyleRegistered _ => false
  end.

Definition is_null (style : StyleProp) : bool :=
  match style with
  | StyleNull => true
  | _ => false
  end.

Definition includes (keys : list string) (name : string) : bool :=
  existsb (String.eqb name) keys.

(** [style.name] *)
Definition style_property (style : StyleProp) (name : string) : JSValue :=
  match style with
  | StylePlain fields => get_property fields name
  | _ => VUndefined
  end.

(* ================================================================== *)
(** ** Props, state, events and effects *)
(* ================================================================== *)

(** [ScrollPickerProps<T>].  An optional prop is an [option]; the two
    callbacks into the owner are recorded by whether they were supplied.
    [changeValueWhileDragging] exists in the newer revision only. *)
Module P.
Record ScrollPickerProps (T : Type) : Type := {
  data : option (list T);
  containerStyle : StyleProp;
  style : StyleProp;
  selectedIndex : option number;
  onValueChange : bool;
  renderItem : bool;
  keyExtractor : option (T -> number -> JSValue);
  highlightColor : option string;
  itemHeight : option number;
  containerHeight : option number;
  changeValueWhileDragging : option bool
}.
End P.

Definition Props : Type -> Type := P.ScrollPickerProps.

(** The destructuring defaults of the component's parameter. *)
Definition itemHeight (T : Type) (p : Props T) : number :=
  match P.itemHeight p with
  | Some h => h
  | None => num 30
  end.

Definition data (T : Type) (p : Props T) : list T :=
  match P.data p with
  | Some d => d
  | None => []
  end.

Definition highlightColor (T : Type) (p : Props T) : string :=
  match P.highlightColor p with
  | Some c => c
  | None => "#333"%string
  end.

Definition changeValueWhileDragging (T : Type) (p : Props T) : bool :=
  match P.changeValueWhileDragging p with
  | Some b => b
  | None => true
  end.

(** The scroll event.  The typings make [contentOffset] and its [y]
    present; the older revision tests [contentOffset] and the newer one
    guards [y] with [??], so both may be missing here. *)
Module E.
Record NativeScrollPoint : Type := { y : option number }.
Record NativeScrollEvent : Type :=
  { contentOffset : option NativeScrollPoint }.
Record NativeSyntheticEvent : Type := { nativeEvent : NativeScrollEvent }.
End E.

Definition ScrollEvent : Type := E.NativeSyntheticEvent.

(** The event of a scroll at content offset [y0]. *)
Definition scroll_at (y0 : number) : ScrollEvent :=
  {| E.nativeEvent := {| E.contentOffset := Some {| E.y := Some y0 |} |} |}.

Definition TimerId : Type := nat.

(** The five [useState] cells. *)
Record State : Type := {
  selectedIndex : number;
  isScrollTo : bool;
  dragStarted : bool;
  momentumStarted : bool;
  timer : option TimerId
}.

Definition setSelectedIndex (v : number) (s : State) : State :=
  {| selectedIndex := v; isScrollTo := isScrollTo s;
     dragStarted := dragStarted s; momentumStarted := momentumStarted s;
     timer := timer s |}.

Definition setIsScrollTo (v : bool) (s : State) : State :=
  {| selectedIndex := selectedIndex s; isScrollTo := v;
     dragStarted := dragStarted s; momentumStarted := momentumStarted s;
     timer := timer s |}.

Definition setDragStarted (v : bool) (s : State) : State :=
  {| selectedIndex := selectedIndex s; isScrollTo := isScrollTo s;
     dragStarted := v; momentumStarted := momentumStarted s;
     timer := timer s |}.

Definition setMomentumStarted (v : bool) (s : State) : State :=
  {| selectedIndex := selectedIndex s; isScrollTo := isScrollTo s;
     dragStarted := dragStarted s; momentumStarted := v;
     timer := timer s |}.

Definition setTimer (v : option TimerId) (s : State) : State :=
  {| selectedIndex := selectedIndex s; isScrollTo := isScrollTo s;
     dragStarted := dragStarted s; momentumStarted := momentumStarted s;
     timer := v |}.

(** What the arrow function given to [setTimeout] closes over: the props
    and state of the render in which [onScrollEndDrag] ran, and the copy
    [_e] of its event. *)
Record TimerCallback (T : Type) : Type := {
  captured_props : Props T;
  captured_render : State;
  captured_event : ScrollEvent
}.

(** What a handler does to the world outside the component's state. *)
Inductive Effect (T : Type) : Type :=
| CallOnValueChange (value : option T) (index : number)
| ScrollTo (y : number) (animated : option bool)
| ClearTimeout (id : TimerId)
| SetTimeout (id : TimerId) (cb : TimerCallback T) (delay : Z)
| ThrowTypeError.

Arguments CallOnValueChange {T} value index.
Arguments ScrollTo {T} y animated.
Arguments ClearTimeout {T} id.
Arguments SetTimeout {T} id cb delay.
Arguments ThrowTypeError {T}.

Inductive PlatformOS : Type := ios | android | macos | windows | web.

(** What the component reads from its surroundings: [Platform.OS], the
    window width, and whether the ref [sView.current] holds the ScrollView
    (it does from mount to unmount). *)
Record Env : Type := {
  OS : PlatformOS;
  deviceWidth : number;
  sView_current : bool
}.

Definition is_ios (env : Env) : bool :=
  match OS env with
  | ios => true
  | _ => false
  end.

(** [sView.current?.scrollTo({ y, animated })] *)
Definition sView_scrollTo (T : Type) (env : Env) (y : number)
  (animated : option bool) : list (Effect T) :=
  if sView_current env then [ScrollTo y animated] else [].

Arguments sView_scrollTo {T} env y animated.

(** [p.onValueChange?.({ value, index })] *)
Definition p_onValueChange (T : Type) (p : Props T) (value : option T)
  (index : number) : list (Effect T) :=
  if P.onValueChange p then [CallOnValueChange value index] else [].

(** [timer && clearTimeout(timer)]: a timer handle is truthy. *)
Definition clear_timer (T : Type) (t : option TimerId) : list (Effect T) :=
  match t with
  | Some id => [ClearTimeout id]
  | None => []
  end.

Arguments clear_timer {T} t.

(** [index ?? 0] and the like. *)
Definition nullish_or (a : option number) (d : number) : number :=
  match a with
  | Some v => v
  | None => d
  end.

(** ToNumber of a value that is a number or undefined. *)
Definition to_number (a : option number) : number := nullish_or a NaN.

(** [a !== b] where [b] may be undefined. *)
Definition strict_neq (a : number) (b : option number) : bool :=
  match b with
  | Some v => negb (strict_eq a v)
  | None => true
  end.

(* ================================================================== *)
(** ** The functions both revisions share, word for word *)
(* ================================================================== *)

Definition isNumeric (str : JSValue) : bool :=
  match str with
  | VNumber _ => true
  | VString s => negb (isNaN (VString s)) && negb (is_nan (parseFloat s))
  | _ => false
  end.

Definition isViewStyle (style : StyleProp) : bool :=
  typeof_is_object style
  && negb (is_null style)
  && includes (Object_keys style) "height".

(** Limits the index between 0 and data.length - 1. *)
Definition constrainIndex (index : option number) (dataLength : number)
  : number :=
  Math_max (num 0) (Math_min (nullish_or index (num 0))
                             (js_sub dataLength (num 1))).

(** The middle operand of [wrapperHeight]. *)
Definition styleHeight (style : StyleProp) : number :=
  if isViewStyle style && isNumeric (style_property style "height")
  then Number_ (style_property style "height")
  else num 0.

(** [a || b] where [a] may be undefined. *)
Definition or_number (a : option number) (b : number) : number :=
  match a with
  | Some v => js_or v b
  | None => b
  end.

Definition wrapperHeight (T : Type) (p : Props T) : number :=
  js_or (or_number (P.containerHeight p) (styleHeight (P.style p)))
        (js_mul (itemHeight p) (num 5)).

(** The height of the spacer that [verticalSpacing] returns. *)
Definition verticalSpacing (T : Type) (p : Props T) : number :=
  js_div (js_sub (wrapperHeight p) (itemHeight p)) (num 2).

Definition highlightWidth (T : Type) (env : Env) (p : Props T) : JSValue :=
  let w :=
    if isViewStyle (P.style p) then style_property (P.style p) "width"
    else VNumber (num 0) in
  if ToBoolean w then w else VNumber (deviceWidth env).

Record HighlightStyle : Type := {
  position : string;
  top : number;
  height : number;
  width : JSValue;
  borderColor : string
}.

Definition highlightStyle (T : Type) (env : Env) (p : Props T)
  : HighlightStyle :=
  {| position := "absolute";
     top := js_div (js_sub (wrapperHeight p) (itemHeight p)) (num 2);
     height := itemHeight p;
     width := highlightWidth env p;
     borderColor := highlightColor p |}.

(** The initial state of the five cells. *)
Definition initial_state (T : Type) (p : Props T) : State :=
  {| selectedIndex :=
       constrainIndex (P.selectedIndex p) (array_length (data p));
     isScrollTo := false;
     dragStarted := false;
     momentumStarted := false;
     timer := None |}.

(* ================================================================== *)
(** ** The host: pending timeouts, and the world a run goes through *)
(* ================================================================== *)

Record Host (T : Type) : Type := {
  pending : list (TimerId * TimerCallback T);
  next_id : TimerId
}.

Definition cancel (T : Type) (id : TimerId)
  (l : list (TimerId * TimerCallback T)) : list (TimerId * TimerCallback T) :=
  filter (fun t => negb (Nat.eqb (fst t) id)) l.

(** The host carries out the timer calls among the effects, in order. *)
Definition host_effect (T : Type) (h : Host T) (fx : Effect T) : Host T :=
  match fx with
  | ClearTimeout id => {| pending := cancel id (pending h); next_id := next_id h |}
  | SetTimeout id cb _ =>
      {| pending := pending h ++ [(id, cb)]; next_id := S (next_id h) |}
  | _ => h
  end.

Definition host_effects (T : Type) (h : Host T) (fxs : list (Effect T))
  : Host T :=
  fold_left (@host_effect T) fxs h.

Fixpoint find_timer (T : Type) (id : TimerId)
  (l : list (TimerId * TimerCallback T)) : option (TimerCallback T) :=
  match l with
  | (i, cb) :: r => if Nat.eqb i id then Some cb else find_timer id r
  | [] => None
  end.

(** [initialized] is the ref of that name. *)
Record World (T : Type) : Type := {
  state : State;
  initialized : bool;
  host : Host T
}.

(** What can happen to a mounted component: React runs its effect after a
    render, the ScrollView reports one of its five scroll callbacks, a row
    is pressed, or a timeout falls due. *)
Inductive Event : Type :=
| RunEffect
| ScrollBeginDrag
| ScrollEndDrag (e : ScrollEvent)
| MomentumScrollBegin
| MomentumScrollEnd (e : ScrollEvent)
| Scroll (e : ScrollEvent)
| Press (index : nat)
| Timeout (id : TimerId).

(** The component as mounted with props [p]. *)
Definition mount (T : Type) (p : Props T) : World T :=
  {| state := initial_state p;
     initialized := false;
     host := {| pending := []; next_id := 1%nat |} |}.

(** A row as rendered: what [renderItem] got from the component, or the
    default text and whether it carries the selected style. *)
Inductive Element (T : Type) : Type :=
| DefaultText (item : T) (selectedStyle : bool)
| RenderItem (item : T) (index : number) (isSelected : bool).

Record Row (T : Type) : Type := {
  key : JSValue;
  row_height : number;
  element : Element T;
  (** [onPress]: the index and [animated] given to [scrollToIndex]. *)
  onPress : option (number * bool)
}.

(** [data.map(f)]: [f] gets each item with its index. *)
Fixpoint map_from (A B : Type) (f : A -> number -> B) (i : nat) (l : list A)
  : list B :=
  match l with
  | [] => []
  | a :: r => f a (num (Z.of_nat i)) :: map_from f (S i) r
  end.

(** [p.keyExtractor?.({ item, index }) ?? index] *)
Definition row_key (T : Type) (p : Props T) (item : T) (index : number)
  : JSValue :=
  match P.keyExtractor p with
  | Some f =>
      match f item index with
      | VUndefined | VNull => VNumber index
      | k => k
      end
  | None => VNumber index
  end.

(** [styles.containerStyle] *)
Definition styles_containerStyle : StyleProp :=
  StylePlain [("flex"%string, VNumber (num 1));
              ("overflow"%string, VString "hidden")].

(** The tree the component returns: the style array of the wrapping view,
    the highlight, and the column inside the ScrollView, which is a spacer,
    the rows, and a spacer. *)
Record Rendered (T : Type) : Type := {
  container_style : list StyleProp;
  highlight : HighlightStyle;
  spacer_before : number;
  rows : list (Row T);
  spacer_after : number;
  onScroll_attached : bool
}.

(** Where row [i] begins in the column: below the first spacer and the
    rows before it. *)
Definition row_top (T : Type) (r : Rendered T) (i : nat) : number :=
  fold_left js_add (map (@row_height T) (firstn i (rows r))) (spacer_before r).

(** The rows with [isSelected] (or the selected style). *)
Definition row_selected (T : Type) (r : Row T) : bool :=
  match element r with
  | DefaultText _ b => b
  | RenderItem _ _ b => b
  end.

Definition selected_rows (T : Type) (r : Rendered T) : list (Row T) :=
  filter (@row_selected T) (rows r).

(** The world after a handler: its state updates committed, its timer
    calls carried out by the host. *)
Definition commit (T : Type) (w : World T) (r : State * list (Effect T))
  : World T * list (Effect T) :=
  ({| state := fst r;
      initialized := initialized w;
      host := host_effects (host w) (snd r) |},
   snd r).

(** The world once timeout [id] has left the pending list to run. *)
Definition fired (T : Type) (w : World T) (id : TimerId) : World T :=
  {| state := state w;
     initialized := initialized w;
     host := {| pending := cancel id (pending (host w));
                next_id := next_id (host w) |} |}.

(* ================================================================== *)
(** ** The older revision, [src/index.tsx] *)
(* ================================================================== *)

Module Index.

Section Component.
Variable T : Type.
Variable env : Env.

(** The effect [initialize]. *)
Definition initialize (p : Props T) (w : World T)
  : World T * list (Effect T) :=
  if initialized w then (w, [])
  else
    let s := state w in
    let changed :=
      match P.selectedIndex p with
      | Some i =>
          if negb (strict_eq i (selectedIndex s))
          then p_onValueChange p (array_get (data p) (selectedIndex s))
                               (selectedIndex s)
          else []
      | None => []
      end in
    let y := js_mul (itemHeight p) (selectedIndex s) in
    ({| state := s; initialized := true; host := host w |},
     changed ++ sView_scrollTo env y (Some false)).

Definition renderItem (p : Props T) (s : State) (item : T) (index : number)
  : Row T :=
  let isSelected := strict_eq index (selectedIndex s) in
  let element :=
    if P.renderItem p then RenderItem item index isSelected
    else DefaultText item isSelected in
  {| key := row_key p item index;
     row_height := itemHeight p;
     element := element;
     onPress := None |}.

(** [rendered] is the state of the render whose closure this call is,
    [live] the state its updates go to. *)
Definition scrollFix (p : Props T) (rendered live : State) (e : ScrollEvent)
  : State * list (Effect T) :=
  let h := itemHeight p in
  let y :=
    match E.contentOffset (E.nativeEvent e) with
    | Some c => E.y c
    | None => Some (num 0)
    end in
  let _selectedIndex := Math_round (js_div (to_number y) h) in
  let _y := js_mul _selectedIndex h in
  let '(live1, fx1) :=
    if strict_neq _y y then
      ((if is_ios env then setIsScrollTo true live else live),
       sView_scrollTo env _y None)
    else (live, []) in
  if strict_eq (selectedIndex rendered) _selectedIndex then (live1, fx1)
  else
    (setSelectedIndex _selectedIndex live1,
     fx1 ++ p_onValueChange p (array_get (data p) _selectedIndex)
                            _selectedIndex).

Definition onScrollBeginDrag (s : State) : State * list (Effect T) :=
  let s1 := setDragStarted true s in
  let s2 := if is_ios env then setIsScrollTo false s1 else s1 in
  (s2, clear_timer (timer s)).

(** [fresh] is the handle that [setTimeout] returns. *)
Definition onScrollEndDrag (p : Props T) (s : State) (e : ScrollEvent)
  (fresh : TimerId) : State * list (Effect T) :=
  let s1 := setDragStarted false s in
  let _e := e in
  let cb := {| captured_props := p; captured_render := s;
               captured_event := _e |} in
  (setTimer (Some fresh) s1,
   clear_timer (timer s) ++ [SetTimeout fresh cb 50]).

(** [() => !momentumStarted && scrollFix(_e)] *)
Definition timeout_callback (cb : TimerCallback T) (live : State)
  : State * list (Effect T) :=
  if negb (momentumStarted (captured_render cb))
  then scrollFix (captured_props cb) (captured_render cb) live
                 (captured_event cb)
  else (live, []).

Definition onMomentumScrollBegin (s : State) : State * list (Effect T) :=
  (setMomentumStarted true s, clear_timer (timer s)).

Definition onMomentumScrollEnd (p : Props T) (s : State) (e : ScrollEvent)
  : State * list (Effect T) :=
  let s1 := setMomentumStarted false s in
  if negb (isScrollTo s) && negb (dragStarted s)
  then scrollFix p s s1 e
  else (s1, []).

Definition render (p : Props T) (s : State) : Rendered T :=
  {| container_style :=
       [styles_containerStyle;
        StylePlain [("height"%string, VNumber (wrapperHeight p))];
        P.containerStyle p];
     highlight := highlightStyle env p;
     spacer_before := verticalSpacing p;
     rows := map_from (renderItem p s) 0 (data p);
     spacer_after := verticalSpacing p;
     onScroll_attached := false |}.

(** One event on the mounted component, delivered to the handlers of a
    render of its current state.  This revision gives the ScrollView no
    [onScroll] and its rows no [onPress]. *)
Definition step (p : Props T) (w : World T) (ev : Event)
  : World T * list (Effect T) :=
  match ev with
  | RunEffect => initialize p w
  | ScrollBeginDrag => commit w (onScrollBeginDrag (state w))
  | ScrollEndDrag e =>
      commit w (onScrollEndDrag p (state w) e (next_id (host w)))
  | MomentumScrollBegin => commit w (onMomentumScrollBegin (state w))
  | MomentumScrollEnd e => commit w (onMomentumScrollEnd p (state w) e)
  | Scroll _ => (w, [])
  | Press _ => (w, [])
  | Timeout id =>
      match find_timer id (pending (host w)) with
      | Some cb => commit (fired w id) (timeout_callback cb (state w))
      | None => (w, [])
      end
  end.

(** A run: each event comes with the props of the render it meets. *)
Fixpoint run (w : World T) (evs : list (Props T * Event))
  : World T * list (Effect T) :=
  match evs with
  | [] => (w, [])
  | (p, ev) :: rest =>
      let '(w1, fx1) := step p w ev in
      let '(w2, fx2) := run w1 rest in
      (w2, fx1 ++ fx2)
  end.

End Component.

End Index.

(* ================================================================== *)
(** ** The newer revision, [src/unnamed/part_000] *)
(* ================================================================== *)

Module Part000.

Section Component.
Variable T : Type.
Variable env : Env.

Definition scrollToIndex (p : Props T) (index : number) (animated : bool)
  : list (Effect T) :=
  let y := js_mul (itemHeight p) index in
  sView_scrollTo env y (Some animated).

(** The effect [initialize]. *)
Definition initialize (p : Props T) (w : World T)
  : World T * list (Effect T) :=
  if initialized w then (w, [])
  else
    let s := state w in
    let changed :=
      match P.selectedIndex p with
      | Some i =>
          if negb (strict_eq i (selectedIndex s))
          then p_onValueChange p (array_get (data p) (selectedIndex s))
                               (selectedIndex s)
          else []
      | None => []
      end in
    ({| state := s; initialized := true; host := host w |},
     changed ++ scrollToIndex p (selectedIndex s) false).

Definition renderItem (p : Props T) (s : State) (item : T) (index : number)
  : Row T :=
  let isSelected := strict_eq index (selectedIndex s) in
  let element :=
    if P.renderItem p then RenderItem item index isSelected
    else DefaultText item isSelected in
  {| key := row_key p item index;
     row_height := itemHeight p;
     element := element;
     onPress := Some (index, true) |}.

(** [rendered] is the state of the render whose closure this call is,
    [live] the state its updates go to.  Reading [.y] of a missing
    [contentOffset] throws before anything else is done. *)
Definition scrollFix (p : Props T) (rendered live : State) (e : ScrollEvent)
  (setScrollTo : bool) : State * list (Effect T) :=
  match E.contentOffset (E.nativeEvent e) with
  | None => (live, [ThrowTypeError])
  | Some c =>
      let y := nullish_or (E.y c) (num 0) in
      let h := itemHeight p in
      let _selectedIndex := Math_round (js_div y h) in
      let '(live1, fx1) :=
        if setScrollTo then
          let _y := js_mul _selectedIndex h in
          if negb (strict_eq _y y) then
            ((if is_ios env then setIsScrollTo true live else live),
             sView_scrollTo env _y None)
          else (live, [])
        else (live, []) in
      if strict_eq (selectedIndex rendered) _selectedIndex then (live1, fx1)
      else
        (setSelectedIndex _selectedIndex live1,
         fx1 ++ p_onValueChange p (array_get (data p) _selectedIndex)
                                _selectedIndex)
  end.

Definition onScrollBeginDrag (s : State) : State * list (Effect T) :=
  let s1 := setDragStarted true s in
  let s2 := if is_ios env then setIsScrollTo false s1 else s1 in
  (s2, clear_timer (timer s)).

(** [fresh] is the handle that [setTimeout] returns. *)
Definition onScrollEndDrag (p : Props T) (s : State) (e : ScrollEvent)
  (fresh : TimerId) : State * list (Effect T) :=
  let s1 := setDragStarted false s in
  let _e := e in
  let cb := {| captured_props := p; captured_render := s;
               captured_event := _e |} in
  (setTimer (Some fresh) s1,
   clear_timer (timer s) ++ [SetTimeout fresh cb 50]).

(** [() => !momentumStarted && scrollFix(_e)] *)
Definition timeout_callback (cb : TimerCallback T) (live : State)
  : State * list (Effect T) :=
  if negb (momentumStarted (captured_render cb))
  then scrollFix (captured_props cb) (captured_render cb) live
                 (captured_event cb) true
  else (live, []).

Definition onMomentumScrollBegin (s : State) : State * list (Effect T) :=
  (setMomentumStarted true s, clear_timer (timer s)).

Definition onMomentumScrollEnd (p : Props T) (s : State) (e : ScrollEvent)
  : State * list (Effect T) :=
  let s1 := setMomentumStarted false s in
  if negb (isScrollTo s) && negb (dragStarted s)
  then scrollFix p s s1 e true
  else (s1, []).

Definition onScroll (p : Props T) (s : State) (e : ScrollEvent)
  : State * list (Effect T) :=
  scrollFix p s s e false.

Definition render (p : Props T) (s : State) : Rendered T :=
  {| container_style :=
       [styles_containerStyle;
        StylePlain [("height"%string, VNumber (wrapperHeight p))];
        P.containerStyle p];
     highlight := highlightStyle env p;
     spacer_before := verticalSpacing p;
     rows := map_from (renderItem p s) 0 (data p);
     spacer_after := verticalSpacing p;
     onScroll_attached := changeValueWhileDragging p |}.

(** One event on the mounted component, delivered to the handlers of a
    render of its current state.  [onScroll] is attached when
    [changeValueWhileDragging] holds; a press reaches the [onPress] of
    the row it lands on. *)
Definition step (p : Props T) (w : World T) (ev : Event)
  : World T * list (Effect T) :=
  match ev with
  | RunEffect => initialize p w
  | ScrollBeginDrag => commit w (onScrollBeginDrag (state w))
  | ScrollEndDrag e =>
      commit w (onScrollEndDrag p (state w) e (next_id (host w)))
  | MomentumScrollBegin => commit w (onMomentumScrollBegin (state w))
  | MomentumScrollEnd e => commit w (onMomentumScrollEnd p (state w) e)
  | Scroll e =>
      if onScroll_attached (render p (state w))
      then commit w (onScroll p (state w) e)
      else (w, [])
  | Press i =>
      match nth_error (rows (render p (state w))) i with
      | Some r =>
          match onPress r with
          | Some (index, animated) => (w, scrollToIndex p index animated)
          | None => (w, [])
          end
      | None => (w, [])
      end
  | Timeout id =>
      match find_timer id (pending (host w)) with
      | Some cb => commit (fired w id) (timeout_callback cb (state w))
      | None => (w, [])
      end
  end.

(** A run: each event comes with the props of the render it meets. *)
Fixpoint run (w : World T) (evs : list (Props T * Event))
  : World T * list (Effect T) :=
  match evs with
  | [] => (w, [])
  | (p, ev) :: rest =>
      let '(w1, fx1) := step p w ev in
      let '(w2, fx2) := run w1 rest in
      (w2, fx1 ++ fx2)
  end.

End Component.

End Part000.

(* ================================================================== *)
(** ** Reading effect lists *)
(* ================================================================== *)

(** The [scrollTo] commands among the effects, in order. *)
Definition scroll_commands (T : Type) (fx : list (Effect T))
  : list (number * option bool) :=
  flat_map (fun e => match e with
                     | ScrollTo y a => [(y, a)]
                     | _ => []
                     end) fx.

(** The arguments of the calls of [onValueChange], in order. *)
Definition value_changes (T : Type) (fx : list (Effect T))
  : list (option T * number) :=
  flat_map (fun e => match e with
                     | CallOnValueChange v i => [(v, i)]
                     | _ => []
                     end) fx.

(** The timeouts that the effects schedule. *)
Definition scheduled (T : Type) (fx : list (Effect T)) : list TimerId :=
  flat_map (fun e => match e with
                     | SetTimeout id _ _ => [id]
                     | _ => []
                     end) fx.

(** The ScrollView's callbacks that end a scroll: the end of the momentum,
    and the timeout that the end of a drag leaves behind. *)
Definition end_of_scroll (ev : Event) : bool :=
  match ev with
  | MomentumScrollEnd _ | Timeout _ => true
  | _ => false
  end.

(** The five scroll callbacks and the timeout, as against the effect of
    mounting and a press on a row. *)
Definition scroll_callback (ev : Event) : bool :=
  match ev with
  | RunEffect | Press _ => false
  | _ => true
  end.

(** What no call of [scrollFix] touches: the drag and momentum flags and
    the timer cell, and the host's timers. *)
Definition same_flags (s s' : State) : Prop :=
  dragStarted s' = dragStarted s
  /\ momentumStarted s' = momentumStarted s
  /\ timer s' = timer s.

Definition no_timer_effect (T : Type) (fx : Effect T) : Prop :=
  match fx with
  | ClearTimeout _ | SetTimeout _ _ _ => False
  | _ => True
  end.


(* ================================================================== *)
(** ** Some pickers to run *)
(* ================================================================== *)

Definition iphone : Env :=
  {| OS := ios; deviceWidth := num 390; sView_current := true |}.

(** [<ScrollPicker />]: every prop left out. *)
Definition bare : Props string :=
  {| P.data := None;
     P.containerStyle := StyleUndefined;
     P.style := StyleUndefined;
     P.selectedIndex := None;
     P.onValueChange := false;
     P.renderItem := false;
     P.keyExtractor := None;
     P.highlightColor := None;
     P.itemHeight := None;
     P.containerHeight := None;
     P.changeValueWhileDragging := None |}.

(** Four rows of the default height 30, with an [onValueChange] and a
    [renderItem] from the owner. *)
Definition letters : Props string :=
  {| P.data := Some ["a"; "b"; "c"; "d"]%string;
     P.containerStyle := StyleUndefined;
     P.style := StyleUndefined;
     P.selectedIndex := None;
     P.onValueChange := true;
     P.renderItem := true;
     P.keyExtractor := None;
     P.highlightColor := None;
     P.itemHeight := None;
     P.containerHeight := None;
     P.changeValueWhileDragging := None |}.

(** The same picker asked to start at [selectedIndex]. *)
Definition letters_at (i : number) : Props string :=
  {| P.data := P.data letters;
     P.containerStyle := StyleUndefined;
     P.style := StyleUndefined;
     P.selectedIndex := Some i;
     P.onValueChange := true;
     P.renderItem := true;
     P.keyExtractor := None;
     P.highlightColor := None;
     P.itemHeight := None;
     P.containerHeight := None;
     P.changeValueWhileDragging := None |}.

(** A picker sized by [containerHeight] and a [style] prop. *)
Definition sized (ch : option number) (st : StyleProp) : Props string :=
  {| P.data := P.data letters;
     P.containerStyle := StyleUndefined;
     P.style := st;
     P.selectedIndex := None;
     P.onValueChange := false;
     P.renderItem := false;
     P.keyExtractor := None;
     P.highlightColor := None;
     P.itemHeight := None;
     P.containerHeight := ch;
     P.changeValueWhileDragging := None |}.

(* ================================================================== *)
(** ** Both revisions at once *)
(* ================================================================== *)

Inductive Revision : Type := Older | Newer.

Definition step_of (rev : Revision) (T : Type) (env : Env)
  : Props T -> World T -> Event -> World T * list (Effect T) :=
  match rev with
  | Older => Index.step env
  | Newer => Part000.step env
  end.

Definition run_of (rev : Revision) (T : Type) (env : Env)
  : World T -> list (Props T * Event) -> World T * list (Effect T) :=
  match rev with
  | Older => Index.run env
  | Newer => Part000.run env
  end.

(** [scrollFix(e)], the call with one argument. *)
Definition scrollFix_of (rev : Revision) (T : Type) (env : Env)
  (p : Props T) (rendered live : State) (e : ScrollEvent)
  : State * list (Effect T) :=
  match rev with
  | Older => Index.scrollFix env p rendered live e
  | Newer => Part000.scrollFix env p rendered live e true
  end.

Definition onMomentumScrollEnd_of (rev : Revision) (T : Type) (env : Env)
  : Props T -> State -> ScrollEvent -> State * list (Effect T) :=
  match rev with
  | Older => Index.onMomentumScrollEnd env
  | Newer => Part000.onMomentumScrollEnd env
  end.

Definition timeout_callback_of (rev : Revision) (T : Type) (env : Env)
  : TimerCallback T -> State -> State * list (Effect T) :=
  match rev with
  | Older => Index.timeout_callback env
  | Newer => Part000.timeout_callback env
  end.

(** The worlds a mounted component can be in. *)
Definition reachable (rev : Revision) (T : Type) (env : Env) (w : World T)
  : Prop :=
  exists (p0 : Props T) (evs : list (Props T * Event)),
    w = fst (run_of rev env (mount p0) evs).

(** The world with its state replaced. *)
Definition with_state (T : Type) (w : World T) (s : State) : World T :=
  {| state := s; initialized := initialized w; host := host w |}.

(** The timer discipline: whatever is pending is the timeout whose handle
    the [timer] cell holds, there is at most one, and a pending callback
    that captured [momentumStarted = false] meets no started momentum. *)
Definition timers_ok (T : Type) (w : World T) : Prop :=
  (List.length (pending (host w)) <= 1)%nat
  /\ forall (id : TimerId) (cb : TimerCallback T),
      In (id, cb) (pending (host w)) ->
      timer (state w) = Some id
      /\ (momentumStarted (captured_render cb) = false ->
          momentumStarted (state w) = false).

Definition is_begin_drag (ev : Event) : bool :=
  match ev with
  | ScrollBeginDrag => true
  | _ => false
  end.

(** A stretch of events in which the user begins no drag. *)
Definition no_begin_drag (T : Type) (evs : list (Props T * Event)) : Prop :=
  Forall (fun pe => is_begin_drag (snd pe) = false) evs.

(** A drag begun and let go at offset 40, twice over. *)
Definition two_drags : list (Props string * Event) :=
  [(letters, ScrollBeginDrag);
   (letters, ScrollEndDrag (scroll_at (num 40)));
   (letters, ScrollBeginDrag);
   (letters, ScrollEndDrag (scroll_at (num 70)))].

(** A style object with nothing but a height. *)
Definition of_height (v : JSValue) : StyleProp :=
  StylePlain [("height"%string, v)].

Definition render_of (rev : Revision) (T : Type) (env : Env)
  : Props T -> State -> Rendered T :=
  match rev with
  | Older => Index.render env
  | Newer => Part000.render env
  end.

Definition renderItem_of (rev : Revision) (T : Type)
  : Props T -> State -> T -> number -> Row T :=
  match rev with
  | Older => @Index.renderItem T
  | Newer => @Part000.renderItem T
  end.

(* ================================================================== *)
(** ** The keys, white space and events, for the further facts *)
(* ================================================================== *)

(** The React keys of the rows, in order. *)
Definition row_keys (T : Type) (r : Rendered T) : list JSValue :=
  map (@key T) (rows r).


(** The event whose [contentOffset] is missing, and the one whose
    [contentOffset] has no [y]. *)
Definition no_offset : ScrollEvent :=
  {| E.nativeEvent := {| E.contentOffset := None |} |}.

Definition no_y : ScrollEvent :=
  {| E.nativeEvent := {| E.contentOffset := Some {| E.y := None |} |} |}.

(** A style object with a width and no height. *)
Definition of_width (v : JSValue) : StyleProp :=
  StylePlain [("width"%string, v)].

(** The letters picker with a [keyExtractor] that knows no key. *)
Definition letters_keyless : Props string :=
  {| P.data := P.data letters;
     P.containerStyle := StyleUndefined;
     P.style := StyleUndefined;
     P.selectedIndex := None;
     P.onValueChange := true;
     P.renderItem := true;
     P.keyExtractor := Some (fun _ _ => VUndefined);
     P.highlightColor := None;
     P.itemHeight := None;
     P.containerHeight := None;
     P.changeValueWhileDragging := None |}.

(** The letters picker that reports only once the drag is over. *)
Definition letters_quiet : Props string :=
  {| P.data := P.data letters;
     P.containerStyle := StyleUndefined;
     P.style := StyleUndefined;
     P.selectedIndex := None;
     P.onValueChange := true;
     P.renderItem := true;
     P.keyExtractor := None;
     P.highlightColor := None;
     P.itemHeight := None;
     P.containerHeight := None;
     P.changeValueWhileDragging := Some false |}.

Definition pixel : Env :=
  {| OS := android; deviceWidth := num 412; sView_current := true |}.

(** An event as the typings have it: with a [contentOffset] and its [y]. *)
Definition has_offset (e : ScrollEvent) : bool :=
  match E.contentOffset (E.nativeEvent e) with
  | Some c =>
      match E.y c with
      | Some _ => true
      | None => false
      end
  | None => false
  end.

(** The inputs on which nothing tells the revisions apart: no press, no
    [onScroll] delivered (none happens, or [changeValueWhileDragging] is
    false), and scroll events as the typings have them. *)
Definition common_input (T : Type) (pe : Props T * Event) : bool :=
  match snd pe with
  | Press _ => false
  | Scroll _ => negb (changeValueWhileDragging (fst pe))
  | ScrollEndDrag e | MomentumScrollEnd e => has_offset e
  | _ => true
  end.

(** Every pending callback holds an event as the typings have it. *)
Definition offsets_ok (T : Type) (w : World T) : Prop :=
  Forall (fun t => has_offset (captured_event (snd t)) = true)
         (pending (host w)).

(* ================================================================== *)
(** ** Several callbacks of one render

    React may deliver more than one event to the handlers of one render:
    each of them then reads the state that render saw ([timer],
    [momentumStarted], [isScrollTo], [dragStarted], [selectedIndex]),
    while its updates and its timer calls reach the live component. *)
(* ================================================================== *)

Module Closure.

Section Component.
Variable rev : Revision.
Variable T : Type.
Variable env : Env.

(** The effect [initialize]. *)
Definition initialize (p : Props T) (rendered : State) (w : World T)
  : World T * list (Effect T) :=
  if initialized w then (w, [])
  else
    let changed :=
      match P.selectedIndex p with
      | Some i =>
          if negb (strict_eq i (selectedIndex rendered))
          then p_onValueChange p (array_get (data p) (selectedIndex rendered))
                               (selectedIndex rendered)
          else []
      | None => []
      end in
    ({| state := state w; initialized := true; host := host w |},
     changed
     ++ sView_scrollTo env (js_mul (itemHeight p) (selectedIndex rendered))
                       (Some false)).

Definition onScrollBeginDrag (rendered live : State)
  : State * list (Effect T) :=
  let s1 := setDragStarted true live in
  let s2 := if is_ios env then setIsScrollTo false s1 else s1 in
  (s2, clear_timer (timer rendered)).

(** [fresh] is the handle that [setTimeout] returns. *)
Definition onScrollEndDrag (p : Props T) (rendered live : State)
  (e : ScrollEvent) (fresh : TimerId) : State * list (Effect T) :=
  let s1 := setDragStarted false live in
  let _e := e in
  let cb := {| captured_props := p; captured_render := rendered;
               captured_event := _e |} in
  (setTimer (Some fresh) s1,
   clear_timer (timer rendered) ++ [SetTimeout fresh cb 50]).

Definition onMomentumScrollBegin (rendered live : State)
  : State * list (Effect T) :=
  (setMomentumStarted true live, clear_timer (timer rendered)).

Definition onMomentumScrollEnd (p : Props T) (rendered live : State)
  (e : ScrollEvent) : State * list (Effect T) :=
  let s1 := setMomentumStarted false live in
  if negb (isScrollTo rendered) && negb (dragStarted rendered)
  then scrollFix_of rev env p rendered s1 e
  else (s1, []).

(** One event delivered to the handlers that the render of state
    [rendered] created, on the live component [w]. *)
Definition dispatch (p : Props T) (rendered : State) (w : World T)
  (ev : Event) : World T * list (Effect T) :=
  match ev with
  | RunEffect => initialize p rendered w
  | ScrollBeginDrag => commit w (onScrollBeginDrag rendered (state w))
  | ScrollEndDrag e =>
      commit w (onScrollEndDrag p rendered (state w) e (next_id (host w)))
  | MomentumScrollBegin => commit w (onMomentumScrollBegin rendered (state w))
  | MomentumScrollEnd e => commit w (onMomentumScrollEnd p rendered (state w) e)
  | Scroll e =>
      if onScroll_attached (render_of rev env p rendered)
      then commit w (Part000.scrollFix env p rendered (state w) e false)
      else (w, [])
  | Press i =>
      match nth_error (rows (render_of rev env p rendered)) i with
      | Some r =>
          match onPress r with
          | Some (index, animated) =>
              (w, Part000.scrollToIndex env p index animated)
          | None => (w, [])
          end
      | None => (w, [])
      end
  | Timeout id =>
      match find_timer id (pending (host w)) with
      | Some cb =>
          commit (fired w id) (timeout_callback_of rev env cb (state w))
      | None => (w, [])
      end
  end.

(** The events that reach the handlers of one render, in order. *)
Fixpoint deliver (p : Props T) (rendered : State) (w : World T)
  (evs : list Event) : World T * list (Effect T) :=
  match evs with
  | [] => (w, [])
  | ev :: rest =>
      let '(w1, fx1) := dispatch p rendered w ev in
      let '(w2, fx2) := deliver p rendered w1 rest in
      (w2, fx1 ++ fx2)
  end.

(** A render of the live component with props [p], and the events that
    arrive before the next one. *)
Definition frame (p : Props T) (w : World T) (evs : list Event)
  : World T * list (Effect T) :=
  deliver p (state w) w evs.

(** A run of renders, each with its props and the events it meets. *)
Fixpoint run (w : World T) (frames : list (Props T * list Event))
  : World T * list (Effect T) :=
  match frames with
  | [] => (w, [])
  | (p, evs) :: rest =>
      let '(w1, fx1) := frame p w evs in
      let '(w2, fx2) := run w1 rest in
      (w2, fx1 ++ fx2)
  end.

End Component.

End Closure.

(** The five callbacks that a render hands the ScrollView. *)
Definition view_callback (ev : Event) : bool :=
  match ev with
  | ScrollBeginDrag | ScrollEndDrag _ | MomentumScrollBegin
  | MomentumScrollEnd _ | Scroll _ => true
  | RunEffect | Press _ | Timeout _ => false
  end.

(** The handles of the pending timeouts. *)
Definition pending_ids (T : Type) (w : World T) : list TimerId :=
  map fst (pending (host w)).

(** A release at offset 40 whose momentum begins before the next render. *)
Definition fling : list (Props string * list Event) :=
  [(letters, [ScrollBeginDrag]);
   (letters, [ScrollEndDrag (scroll_at (num 40)); MomentumScrollBegin])].

(** A release at offset 30 and the end of its momentum, each meeting a
    render of its own, and the timeout of the release falling due. *)
Definition release_and_settle : list (Props string * Event) :=
  [(letters, ScrollEndDrag (scroll_at (num 30)));
   (letters, MomentumScrollEnd (scroll_at (num 30)));
   (letters, Timeout 1%nat)].

(* ================================================================== *)
(** ** The arithmetic of [scrollFix] in binary64

    [y / h], [Math.round] and [_selectedIndex * h] over the kernel's
    binary64 floats, which round to nearest, ties to even, as JavaScript
    numbers do. *)
(* ================================================================== *)

Module Binary64.

Import PrimFloat.

(** Below [2^52] in magnitude a float may have a fraction; from there on
    every float is an integer. *)
Definition two52 : float := 0x1p52%float.

(** [Math.floor(x)].  Adding and taking away [2^52] rounds a magnitude
    below it to an integer. *)
Definition Math_floor (x : float) : float :=
  let a := abs x in
  if (two52 <=? a)%float then x
  else
    let t := (a + two52 - two52)%float in
    let d := if (a <? t)%float then (t - 1)%float else t in
    if (0 <=? x)%float then d
    else if (d =? a)%float then (- d)%float
    else (- (d + 1))%float.

(** [Math.round(x)]: the integer nearest to [x], the greater one of two
    equally near.  The sign of a zero result is not kept; [===] does not
    tell the zeros apart. *)
Definition Math_round (x : float) : float :=
  let f := Math_floor x in
  if (x - f <? 0.5)%float then f else (f + 1)%float.





(** The rational that a finite float is. *)
Definition exact (x : float) : option Q :=
  match FloatOps.Prim2SF x with
  | SpecFloat.S754_zero _ => Some 0
  | SpecFloat.S754_finite s m e =>
      let v := inject_Z (Z.pos m) * Qpower (inject_Z 2) e in
      Some (Qred (if s then - v else v))
  | _ => None
  end.







End Binary64.
(* ================================================================== *)
(** ** [scrollFix], call by call *)
(* ================================================================== *)

(** Splits on every condition that decides a branch of the goal. *)
Ltac branches :=
  repeat match goal with
         | |- context [if ?b then _ else _] => destruct b eqn:?
         | |- context [match ?o with Some _ => _ | None => _ end] =>
             destruct o eqn:?
         end;
  simpl in *; try congruence; auto.

Section ScrollFixFacts.
Variable T : Type.
Variable env : Env.
Variable p : Props T.
Variables rendered live : State.

(** On an event that carries an offset, the newer [scrollFix] called
    with [setScrollTo = true] is the older one. *)
Lemma scrollFix_true_is_older (e : ScrollEvent) (c : E.NativeScrollPoint)
  (y0 : number) :
  E.contentOffset (E.nativeEvent e) = Some c -> E.y c = Some y0 ->
  Part000.scrollFix env p rendered live e true
  = Index.scrollFix env p rendered live e.
Proof.
  intros Hc Hy. unfold Part000.scrollFix, Index.scrollFix.
  rewrite Hc, Hy. reflexivity.
Qed.

Variable e : ScrollEvent.
Variable c : E.NativeScrollPoint.
Variable y0 : number.
Hypothesis offset : E.contentOffset (E.nativeEvent e) = Some c.
Hypothesis offset_y : E.y c = Some y0.

Let index := Math_round (js_div y0 (itemHeight p)).
Let target := js_mul index (itemHeight p).

Lemma older_selectedIndex :
  selectedIndex (fst (Index.scrollFix env p rendered live e))
  = if strict_eq (selectedIndex rendered) index
    then selectedIndex live else index.
Proof.
  unfold Index.scrollFix. rewrite offset, offset_y. simpl.
  fold index. fold target. branches.
Qed.

Lemma older_isScrollTo :
  isScrollTo (fst (Index.scrollFix env p rendered live e))
  = if strict_eq target y0 then isScrollTo live
    else if is_ios env then true else isScrollTo live.
Proof.
  unfold Index.scrollFix. rewrite offset, offset_y. simpl.
  fold index. fold target. branches.
Qed.


Lemma older_value_changes :
  value_changes (snd (Index.scrollFix env p rendered live e))
  = if strict_eq (selectedIndex rendered) index then []
    else if P.onValueChange p
         then [(array_get (data p) index, index)] else [].
Proof.
  unfold Index.scrollFix, sView_scrollTo, p_onValueChange.
  rewrite offset, offset_y. simpl.
  fold index. fold target. branches.
Qed.

(** With [setScrollTo = false] the newer [scrollFix] does the second
    half only. *)
Lemma newer_false :
  Part000.scrollFix env p rendered live e false
  = if strict_eq (selectedIndex rendered) index then (live, [])
    else (setSelectedIndex index live,
          p_onValueChange p (array_get (data p) index) index).
Proof.
  unfold Part000.scrollFix. rewrite offset, offset_y. reflexivity.
Qed.

End ScrollFixFacts.

Lemma older_scrollFix_frame (T : Type) (env : Env) (p : Props T)
  (rendered live : State) (e : ScrollEvent) :
  let r := Index.scrollFix env p rendered live e in
  same_flags live (fst r)
  /\ Forall (@no_timer_effect T) (snd r)
  /\ (isScrollTo live = true -> isScrollTo (fst r) = true).
Proof.
  unfold Index.scrollFix, same_flags, sView_scrollTo, p_onValueChange.
  branches; repeat split; simpl; auto; repeat constructor.
Qed.

Lemma newer_scrollFix_frame (T : Type) (env : Env) (p : Props T)
  (rendered live : State) (e : ScrollEvent) (setScrollTo : bool) :
  let r := Part000.scrollFix env p rendered live e setScrollTo in
  same_flags live (fst r)
  /\ Forall (@no_timer_effect T) (snd r)
  /\ (isScrollTo live = true -> isScrollTo (fst r) = true).
Proof.
  unfold Part000.scrollFix, same_flags, sView_scrollTo, p_onValueChange.
  destruct setScrollTo;
    branches; repeat split; simpl; auto; repeat constructor.
Qed.

Lemma array_get_beyond (T : Type) (d : list T) (i : number) :
  js_le (array_length d) i = true -> array_get d i = None.
Proof.
  destruct i as [x| | |]; simpl; try reflexivity.
  intros H.
  destruct (Qeq_bool x (inject_Z (Qfloor x)) && (0 <=? Qfloor x)%Z) eqn:E;
    [|reflexivity].
  apply andb_true_iff in E. destruct E as [Ei En].
  apply Qeq_bool_iff in Ei. apply Z.leb_le in En.
  apply Qle_bool_iff in H. rewrite Ei in H. rewrite <- Zle_Qle in H.
  apply nth_error_None. lia.
Qed.

Lemma array_get_empty (T : Type) (i : number) : array_get (@nil T) i = None.
Proof.
  destruct i as [x| | |]; simpl; try reflexivity.
  destruct (Qeq_bool x (inject_Z (Qfloor x)) && (0 <=? Qfloor x)%Z);
    [|reflexivity].
  destruct (Z.to_nat (Qfloor x)); reflexivity.
Qed.

Lemma value_changes_in (T : Type) (fx : list (Effect T)) (v : option T)
  (i : number) :
  In (CallOnValueChange v i) fx <-> In (v, i) (value_changes fx).
Proof.
  unfold value_changes. rewrite in_flat_map. split.
  - intros H. exists (CallOnValueChange v i). simpl. auto.
  - intros [x [Hx Hin]]. destruct x; simpl in Hin; try contradiction.
    destruct Hin as [Heq|[]]. inversion Heq; subst. exact Hx.
Qed.

(* ================================================================== *)
(** ** Snapping and reporting *)
(* ================================================================== *)




(** The same two numbers over the exact rationals of [number]: the
    quotient stays under 2.5 and row 2 is resolved. *)
Example exact_quotient_resolves_the_nearer_row :
  Math_round (js_div (Fin (201 # 4))
                     (Fin (2828823515942093 # 140737488355328))) = num 2.
Proof. vm_compute. reflexivity. Qed.

(** What [scrollFix] compares the resolved index with is the selected
    index of the render that created it.  When the two are [===], the call
    changes no [selectedIndex] and calls no [onValueChange]; when they
    differ, the call sets [selectedIndex] to the resolved index and calls
    the owner's [onValueChange] once, with [data[index]] and the index. *)
Theorem scrollFix_reports_only_changes :
  forall (T : Type) (env : Env) (p : Props T) (rendered live : State)
         (e : ScrollEvent) (c : E.NativeScrollPoint) (y0 : number),
    E.contentOffset (E.nativeEvent e) = Some c ->
    E.y c = Some y0 ->
    forall (index : number) (r : State * list (Effect T)),
      index = Math_round (js_div y0 (itemHeight p)) ->
      r = Index.scrollFix env p rendered live e
      \/ r = Part000.scrollFix env p rendered live e true
      \/ r = Part000.scrollFix env p rendered live e false ->
      (strict_eq (selectedIndex rendered) index = true ->
       selectedIndex (fst r) = selectedIndex live
       /\ value_changes (snd r) = [])
      /\ (strict_eq (selectedIndex rendered) index = false ->
          selectedIndex (fst r) = index
          /\ (P.onValueChange p = true ->
              value_changes (snd r) = [(array_get (data p) index, index)])).
Proof.
  intros T env p rendered live e c y0 Hc Hy index r Hi Hr.
  destruct Hr as [Hr|[Hr|Hr]].
  - subst r.
    rewrite (older_selectedIndex env p rendered live e Hc Hy).
    rewrite (older_value_changes env p rendered live e Hc Hy).
    subst index. split; intros ->; split; try reflexivity.
    intros ->. reflexivity.
  - rewrite (scrollFix_true_is_older env p rendered live e Hc Hy) in Hr.
    subst r.
    rewrite (older_selectedIndex env p rendered live e Hc Hy).
    rewrite (older_value_changes env p rendered live e Hc Hy).
    subst index. split; intros ->; split; try reflexivity.
    intros ->. reflexivity.
  - rewrite (newer_false env p rendered live e Hc Hy) in Hr.
    subst r index. unfold p_onValueChange.
    split; intros ->; simpl; split; try reflexivity.
    intros ->. reflexivity.
Qed.

(** From the first row, a scroll that ends at offset 40 selects row 1 and
    reports ["b"]. *)
Lemma scrollFix_reports_only_changes_witness :
  selectedIndex
    (fst (Index.scrollFix iphone letters (initial_state letters)
            (initial_state letters) (scroll_at (num 40)))) = num 1
  /\ value_changes
       (snd (Index.scrollFix iphone letters (initial_state letters)
               (initial_state letters) (scroll_at (num 40))))
     = [(Some "b"%string, num 1)].
Proof.
  destruct (proj2
    (@scrollFix_reports_only_changes string iphone letters
       (initial_state letters) (initial_state letters) (scroll_at (num 40))
       {| E.y := Some (num 40) |} (num 40) eq_refl eq_refl (num 1) _
       eq_refl (or_introl eq_refl)) eq_refl) as [Hs Hv].
  split; [exact Hs | exact (Hv eq_refl)].
Defined.

(** C2.  The selected index that [scrollFix] compares with is the one its
    render saw, which need not be the current one.  Over the four letters,
    a call at offset 30 from a render that saw row 0 reports row 1 again
    when row 1 is selected already; and a call from a render that saw
    row 1, when row 0 is the current selection, neither selects row 1 nor
    reports it.  A run meets the first case: a release at offset 30, the
    end of a momentum there, which selects and reports row 1, and then
    the timeout of the release, whose callback still holds the render of
    the release, reports row 1 a second time. *)
Theorem stale_render_reports_the_row_again :
  let saw_0 := initial_state letters in
  let saw_1 := setSelectedIndex (num 1) (initial_state letters) in
  let e := scroll_at (num 30) in
  Math_round (js_div (num 30) (itemHeight letters)) = num 1
  /\ selectedIndex saw_1 = num 1
  /\ value_changes (snd (Index.scrollFix iphone letters saw_0 saw_1 e))
     = [(Some "b"%string, num 1)]
  /\ value_changes (snd (Part000.scrollFix iphone letters saw_0 saw_1 e true))
     = [(Some "b"%string, num 1)]
  /\ Index.scrollFix iphone letters saw_1 saw_0 e = (saw_0, [])
  /\ Part000.scrollFix iphone letters saw_1 saw_0 e true = (saw_0, [])
  /\ (forall rev : Revision,
         selectedIndex
           (state (fst (run_of rev iphone (mount letters)
                          (firstn 2 release_and_settle)))) = num 1
         /\ value_changes
              (snd (run_of rev iphone (mount letters)
                      (firstn 2 release_and_settle)))
            = [(Some "b"%string, num 1)]
         /\ value_changes
              (snd (run_of rev iphone (mount letters) release_and_settle))
            = [(Some "b"%string, num 1); (Some "b"%string, num 1)]).
Proof.
  repeat split; destruct rev; reflexivity.
Qed.

(** C5.  No bounds check stands between the offset and the list: for every
    [data] and every offset [y], each call that [scrollFix] makes of
    [onValueChange] passes the index [Math.round(y / itemHeight)] and the
    value [data[Math.round(y / itemHeight)]] as read; when that index is
    [data.length] or more, or [data] is empty, the value read is the absent
    element, and it is what the owner is given when the index differs from
    the selected one. *)
Theorem scrollFix_reads_data_unchecked :
  forall (T : Type) (env : Env) (p : Props T) (rendered live : State)
         (e : ScrollEvent) (c : E.NativeScrollPoint) (y0 : number),
    E.contentOffset (E.nativeEvent e) = Some c ->
    E.y c = Some y0 ->
    forall (index : number) (r : State * list (Effect T)),
      index = Math_round (js_div y0 (itemHeight p)) ->
      r = Index.scrollFix env p rendered live e
      \/ r = Part000.scrollFix env p rendered live e true
      \/ r = Part000.scrollFix env p rendered live e false ->
      (forall (v : option T) (i : number),
          In (CallOnValueChange v i) (snd r) ->
          i = index /\ v = array_get (data p) index)
      /\ (js_le (array_length (data p)) index = true \/ data p = [] ->
          array_get (data p) index = None
          /\ (strict_eq (selectedIndex rendered) index = false ->
              P.onValueChange p = true ->
              value_changes (snd r) = [(None, index)])).
Proof.
  intros T env p rendered live e c y0 Hc Hy index r Hi Hr.
  assert (Hv : value_changes (snd r)
               = if strict_eq (selectedIndex rendered) index then []
                 else if P.onValueChange p
                      then [(array_get (data p) index, index)] else []).
  { subst index. destruct Hr as [Hr|[Hr|Hr]]; subst r.
    - apply (older_value_changes env p rendered live e Hc Hy).
    - rewrite (scrollFix_true_is_older env p rendered live e Hc Hy).
      apply (older_value_changes env p rendered live e Hc Hy).
    - rewrite (newer_false env p rendered live e Hc Hy).
      unfold p_onValueChange. branches. }
  split.
  - intros v i Hin. apply value_changes_in in Hin. rewrite Hv in Hin.
    destruct (strict_eq (selectedIndex rendered) index); [destruct Hin|].
    destruct (P.onValueChange p); [|destruct Hin].
    destruct Hin as [Heq|[]]. inversion Heq. split; reflexivity.
  - intros Hout.
    assert (Hnone : array_get (data p) index = None).
    { destruct Hout as [Hle|Hnil].
      - apply array_get_beyond. exact Hle.
      - rewrite Hnil. apply array_get_empty. }
    split; [exact Hnone|].
    intros Hne Hcb. rewrite Hv, Hne, Hcb, Hnone. reflexivity.
Qed.

(** Four rows, a scroll to offset 150: index 5, past the end, and the
    owner is handed [undefined]. *)
Lemma scrollFix_reads_data_unchecked_witness :
  value_changes
    (snd (Index.scrollFix iphone letters (initial_state letters)
            (initial_state letters) (scroll_at (num 150))))
  = [(None, num 5)].
Proof.
  refine (proj2 (proj2
    (@scrollFix_reads_data_unchecked string iphone letters
       (initial_state letters) (initial_state letters) (scroll_at (num 150))
       {| E.y := Some (num 150) |} (num 150) eq_refl eq_refl (num 5) _
       eq_refl (or_introl eq_refl)) (or_introl eq_refl)) eq_refl eq_refl).
Defined.

(** The picker without props has no rows, and any scroll away from 0
    reports [undefined]. *)
Example scrollFix_on_no_data :
  Part000.scrollFix iphone bare (initial_state bare) (initial_state bare)
    (scroll_at (num 31)) true
  = (setSelectedIndex (num 1) (setIsScrollTo true (initial_state bare)),
     [ScrollTo (num 30) None]).
Proof. reflexivity. Qed.

(** An event without [contentOffset], against the typings: the older
    revision takes the offset for 0, the newer one throws. *)
Example older_scrollFix_without_offset :
  Index.scrollFix iphone letters (initial_state letters)
    (initial_state letters)
    {| E.nativeEvent := {| E.contentOffset := None |} |}
  = (initial_state letters, []).
Proof. reflexivity. Qed.

Example newer_scrollFix_without_offset :
  Part000.scrollFix iphone letters (initial_state letters)
    (initial_state letters)
    {| E.nativeEvent := {| E.contentOffset := None |} |} true
  = (initial_state letters, [ThrowTypeError]).
Proof. reflexivity. Qed.

(** C9.  On equal props, rendered state and content offset [y], the newer
    [scrollFix] called with [setScrollTo = true] returns what the older
    one returns: the same state updates (the index stored, [isScrollTo])
    and the same effects (the [scrollTo] target, the [onValueChange]
    call), in the same order. *)
Theorem revisions_agree_on_scrollFix :
  forall (T : Type) (env : Env) (p : Props T) (rendered live : State)
         (e : ScrollEvent) (c : E.NativeScrollPoint) (y0 : number),
    E.contentOffset (E.nativeEvent e) = Some c ->
    E.y c = Some y0 ->
    Part000.scrollFix env p rendered live e true
    = Index.scrollFix env p rendered live e
    /\ Index.scrollFix env p rendered live e
       = (let index := Math_round (js_div y0 (itemHeight p)) in
          let target := js_mul index (itemHeight p) in
          let snap := negb (strict_eq target y0) in
          let change := negb (strict_eq (selectedIndex rendered) index) in
          let live1 :=
            if snap && is_ios env then setIsScrollTo true live else live in
          (if change then setSelectedIndex index live1 else live1,
           (if snap then sView_scrollTo env target None else [])
           ++ (if change
               then p_onValueChange p (array_get (data p) index) index
               else []))).
Proof.
  intros T env p rendered live e c y0 Hc Hy. split.
  - apply scrollFix_true_is_older with (c := c) (y0 := y0); assumption.
  - unfold Index.scrollFix. rewrite Hc, Hy. simpl.
    destruct (strict_eq (js_mul (Math_round (js_div y0 (itemHeight p)))
                                (itemHeight p)) y0);
      destruct (strict_eq (selectedIndex rendered)
                          (Math_round (js_div y0 (itemHeight p))));
      destruct (is_ios env); simpl; rewrite ?app_nil_r; reflexivity.
Qed.

Lemma revisions_agree_on_scrollFix_witness :
  Part000.scrollFix iphone letters (initial_state letters)
    (initial_state letters) (scroll_at (num 40)) true
  = Index.scrollFix iphone letters (initial_state letters)
      (initial_state letters) (scroll_at (num 40)).
Proof.
  exact (proj1 (@revisions_agree_on_scrollFix string iphone letters
                  (initial_state letters) (initial_state letters)
                  (scroll_at (num 40)) {| E.y := Some (num 40) |} (num 40)
                  eq_refl eq_refl)).
Defined.

(* ================================================================== *)
(** ** The host's timers *)
(* ================================================================== *)

Lemma host_effects_no_timers (T : Type) (fx : list (Effect T)) :
  Forall (@no_timer_effect T) fx -> forall h : Host T, host_effects h fx = h.
Proof.
  unfold host_effects.
  induction 1 as [|x l Hx Hl IH]; intros h; simpl; [reflexivity|].
  rewrite <- (IH h) at 2. f_equal.
  destruct x; simpl in *; try contradiction; reflexivity.
Qed.

Lemma cancel_all (T : Type) (id : TimerId)
  (l : list (TimerId * TimerCallback T)) :
  (forall x, In x l -> fst x = id) -> cancel id l = [].
Proof.
  induction l as [|[i c] l IH]; intros H; [reflexivity|].
  pose proof (H (i, c) (or_introl eq_refl)) as Hi. simpl in Hi. subst i.
  unfold cancel. simpl. rewrite Nat.eqb_refl. simpl.
  apply IH. intros x Hx. apply H. right. exact Hx.
Qed.

Lemma find_timer_in (T : Type) (id : TimerId) (cb : TimerCallback T)
  (l : list (TimerId * TimerCallback T)) :
  find_timer id l = Some cb -> In (id, cb) l.
Proof.
  induction l as [|[i c] l IH]; simpl; [discriminate|].
  destruct (Nat.eqb i id) eqn:E.
  - intros H. inversion H; subst. apply Nat.eqb_eq in E. subst. auto.
  - auto.
Qed.

Section Timers.
Variable T : Type.
Variable w : World T.
Hypothesis ok : timers_ok w.

Lemma pending_cancelled (t : TimerId) :
  timer (state w) = Some t -> cancel t (pending (host w)) = [].
Proof.
  intros Ht. apply cancel_all. intros [i cb] Hin.
  destruct ok as [_ H]. destruct (H i cb Hin) as [Hi _].
  simpl. congruence.
Qed.

Lemma pending_without_timer :
  timer (state w) = None -> pending (host w) = [].
Proof.
  intros Ht. destruct (pending (host w)) as [|[i cb] l] eqn:E;
    [reflexivity|].
  destruct ok as [_ H]. destruct (H i cb) as [Hi _].
  - rewrite E. left. reflexivity.
  - congruence.
Qed.

(** [timer && clearTimeout(timer)] leaves nothing pending. *)
Lemma pending_cleared :
  pending (host_effects (host w) (clear_timer (timer (state w)))) = [].
Proof.
  destruct (timer (state w)) as [t|] eqn:Ht; simpl.
  - apply pending_cancelled. exact Ht.
  - apply pending_without_timer. exact Ht.
Qed.

(** A timeout that falls due was the only one pending. *)
Lemma pending_fired (id : TimerId) (cb : TimerCallback T) :
  find_timer id (pending (host w)) = Some cb ->
  cancel id (pending (host w)) = [].
Proof.
  intros Hf. apply find_timer_in in Hf.
  destruct ok as [_ H]. destruct (H id cb Hf) as [Hi _].
  apply pending_cancelled. exact Hi.
Qed.

End Timers.

Lemma timers_ok_nothing_pending (T : Type) (w : World T) :
  pending (host w) = [] -> timers_ok w.
Proof.
  intros E. unfold timers_ok. rewrite E. simpl. split; [lia|].
  intros id cb [].
Qed.

Lemma host_effects_app (T : Type) (h : Host T) (a b : list (Effect T)) :
  host_effects h (a ++ b) = host_effects (host_effects h a) b.
Proof. unfold host_effects. apply fold_left_app. Qed.


Lemma commit_without_timers (T : Type) (w : World T)
  (r : State * list (Effect T)) :
  Forall (@no_timer_effect T) (snd r) ->
  fst (commit w r) = with_state w (fst r).
Proof.
  intros H. unfold commit, with_state. simpl.
  rewrite (host_effects_no_timers H). reflexivity.
Qed.

(** What [onMomentumScrollEnd] leaves alone, and what it sets. *)
Lemma onMomentumScrollEnd_frame (rev : Revision) (T : Type) (env : Env)
  (p : Props T) (s : State) (e : ScrollEvent) :
  let r := onMomentumScrollEnd_of rev env p s e in
  Forall (@no_timer_effect T) (snd r)
  /\ timer (fst r) = timer s
  /\ dragStarted (fst r) = dragStarted s
  /\ momentumStarted (fst r) = false
  /\ (isScrollTo s = true -> isScrollTo (fst r) = true).
Proof.
  destruct rev; simpl;
    unfold Index.onMomentumScrollEnd, Part000.onMomentumScrollEnd;
    destruct (negb (isScrollTo s) && negb (dragStarted s)); simpl;
    try (repeat split; auto; constructor).
  - destruct (older_scrollFix_frame env p s (setMomentumStarted false s) e)
      as [[Hd [Hm Ht]] [Hf Hi]].
    repeat split; auto.
  - destruct (newer_scrollFix_frame env p s (setMomentumStarted false s) e
                true) as [[Hd [Hm Ht]] [Hf Hi]].
    repeat split; auto.
Qed.

Lemma timeout_callback_frame (rev : Revision) (T : Type) (env : Env)
  (cb : TimerCallback T) (live : State) :
  let r := timeout_callback_of rev env cb live in
  Forall (@no_timer_effect T) (snd r)
  /\ same_flags live (fst r)
  /\ (isScrollTo live = true -> isScrollTo (fst r) = true).
Proof.
  destruct rev; simpl;
    unfold Index.timeout_callback, Part000.timeout_callback;
    destruct (negb (momentumStarted (captured_render cb))); simpl;
    try (unfold same_flags; repeat split; auto; constructor).
  - destruct (older_scrollFix_frame env (captured_props cb)
                (captured_render cb) live (captured_event cb))
      as [Hs [Hf Hi]].
    repeat split; auto; apply Hs.
  - destruct (newer_scrollFix_frame env (captured_props cb)
                (captured_render cb) live (captured_event cb) true)
      as [Hs [Hf Hi]].
    repeat split; auto; apply Hs.
Qed.

Lemma timers_ok_with_state (T : Type) (w : World T) (s : State) :
  timers_ok w ->
  timer s = timer (state w) ->
  (momentumStarted (state w) = false -> momentumStarted s = false) ->
  timers_ok (with_state w s).
Proof.
  intros [Hl H] Ht Hm. unfold timers_ok, with_state. simpl.
  split; [exact Hl|].
  intros id cb Hin. destruct (H id cb Hin) as [Hi Hc].
  split; [congruence | auto].
Qed.

(** Every step keeps the timer discipline. *)
Lemma step_timers_ok (rev : Revision) (T : Type) (env : Env) (p : Props T)
  (w : World T) (ev : Event) :
  timers_ok w -> timers_ok (fst (step_of rev env p w ev)).
Proof.
  intros ok.
  destruct ev as [ | | e | | e | e | i | id].
  - destruct rev; simpl;
      unfold Index.initialize, Part000.initialize;
      destruct (initialized w); simpl; exact ok.
  - apply timers_ok_nothing_pending.
    destruct rev; simpl; apply pending_cleared; exact ok.
  - assert (H : pending (host (fst (step_of rev env p w (ScrollEndDrag e))))
                = [(next_id (host w),
                    {| captured_props := p; captured_render := state w;
                       captured_event := e |})]).
    { destruct rev; simpl; rewrite host_effects_app;
        unfold host_effects at 1; simpl;
        fold (host_effects (host w) (clear_timer (timer (state w))));
        rewrite (pending_cleared ok); reflexivity. }
    unfold timers_ok. rewrite H. split; [simpl; lia|].
    intros id cb [Heq|[]]. inversion Heq; subst.
    destruct rev; simpl; auto.
  - apply timers_ok_nothing_pending.
    destruct rev; simpl; apply pending_cleared; exact ok.
  - destruct (onMomentumScrollEnd_frame rev env p (state w) e)
      as [Hf [Ht [_ [Hm _]]]].
    assert (H : fst (step_of rev env p w (MomentumScrollEnd e))
                = with_state w
                    (fst (onMomentumScrollEnd_of rev env p (state w) e))).
    { destruct rev; simpl in *; apply commit_without_timers; exact Hf. }
    rewrite H. apply timers_ok_with_state; auto.
  - destruct rev; simpl; [exact ok|].
    destruct (changeValueWhileDragging p); [|exact ok].
    unfold Part000.onScroll.
    destruct (newer_scrollFix_frame env p (state w) (state w) e false)
      as [[Hd [Hm Ht]] [Hf _]].
    rewrite (commit_without_timers w _ Hf).
    apply timers_ok_with_state; auto. congruence.
  - destruct rev; simpl; [exact ok|].
    destruct (nth_error _ i) as [r|]; [|exact ok].
    destruct (onPress r) as [[index animated]|]; exact ok.
  - assert (H : forall cb, find_timer id (pending (host w)) = Some cb ->
                  fst (step_of rev env p w (Timeout id))
                  = with_state (fired w id)
                      (fst (timeout_callback_of rev env cb (state w)))).
    { intros cb Hcb.
      destruct (timeout_callback_frame rev env cb (state w)) as [Hf _].
      destruct rev; simpl in *; rewrite Hcb;
        apply commit_without_timers; exact Hf. }
    destruct (find_timer id (pending (host w))) as [cb|] eqn:Hcb.
    + rewrite (H cb eq_refl). apply timers_ok_nothing_pending. simpl.
      apply pending_fired with (cb := cb); assumption.
    + destruct rev; simpl; rewrite Hcb; exact ok.
Qed.

Lemma run_cons (rev : Revision) (T : Type) (env : Env) (w : World T)
  (p : Props T) (ev : Event) (rest : list (Props T * Event)) :
  fst (run_of rev env w ((p, ev) :: rest))
  = fst (run_of rev env (fst (step_of rev env p w ev)) rest).
Proof.
  destruct rev; simpl.
  - destruct (Index.step env p w ev) as [w1 fx1]. simpl.
    destruct (Index.run env w1 rest). reflexivity.
  - destruct (Part000.step env p w ev) as [w1 fx1]. simpl.
    destruct (Part000.run env w1 rest). reflexivity.
Qed.

Lemma run_nil (rev : Revision) (T : Type) (env : Env) (w : World T) :
  fst (run_of rev env w []) = w.
Proof. destruct rev; reflexivity. Qed.

Lemma run_timers_ok (rev : Revision) (T : Type) (env : Env)
  (evs : list (Props T * Event)) :
  forall w : World T, timers_ok w -> timers_ok (fst (run_of rev env w evs)).
Proof.
  induction evs as [|[p ev] rest IH]; intros w ok.
  - rewrite run_nil. exact ok.
  - rewrite run_cons. apply IH. apply step_timers_ok. exact ok.
Qed.

Lemma reachable_timers_ok (rev : Revision) (T : Type) (env : Env)
  (w : World T) :
  reachable rev env w -> timers_ok w.
Proof.
  intros [p0 [evs ->]]. apply run_timers_ok.
  apply timers_ok_nothing_pending. reflexivity.
Qed.

(** On iOS a call of [scrollFix] that scrolls has set [isScrollTo]. *)
Lemma older_scroll_sets_flag (T : Type) (env : Env) (p : Props T)
  (rendered live : State) (e : ScrollEvent) :
  is_ios env = true ->
  scroll_commands (snd (Index.scrollFix env p rendered live e)) <> [] ->
  isScrollTo (fst (Index.scrollFix env p rendered live e)) = true.
Proof.
  intros Hios. unfold Index.scrollFix, sView_scrollTo, p_onValueChange.
  rewrite Hios.
  branches; intros H; try reflexivity; exfalso; apply H; reflexivity.
Qed.

Lemma newer_scroll_sets_flag (T : Type) (env : Env) (p : Props T)
  (rendered live : State) (e : ScrollEvent) (setScrollTo : bool) :
  is_ios env = true ->
  scroll_commands (snd (Part000.scrollFix env p rendered live e setScrollTo))
  <> [] ->
  isScrollTo (fst (Part000.scrollFix env p rendered live e setScrollTo))
  = true.
Proof.
  intros Hios. unfold Part000.scrollFix, sView_scrollTo, p_onValueChange.
  rewrite Hios.
  destruct setScrollTo;
    branches; intros H; try reflexivity; exfalso; apply H; reflexivity.
Qed.

Lemma scroll_sets_flag (rev : Revision) (T : Type) (env : Env) (p : Props T)
  (rendered live : State) (e : ScrollEvent) :
  is_ios env = true ->
  scroll_commands (snd (scrollFix_of rev env p rendered live e)) <> [] ->
  isScrollTo (fst (scrollFix_of rev env p rendered live e)) = true.
Proof.
  destruct rev; simpl.
  - apply older_scroll_sets_flag.
  - apply newer_scroll_sets_flag.
Qed.

(** The guard of [onMomentumScrollEnd]. *)
Lemma onMomentumScrollEnd_guard (rev : Revision) (T : Type) (env : Env)
  (p : Props T) (s : State) (e : ScrollEvent) :
  (isScrollTo s = false -> dragStarted s = false ->
   onMomentumScrollEnd_of rev env p s e
   = scrollFix_of rev env p s (setMomentumStarted false s) e)
  /\ (isScrollTo s = true \/ dragStarted s = true ->
      onMomentumScrollEnd_of rev env p s e
      = (setMomentumStarted false s, [])).
Proof.
  destruct rev; simpl;
    unfold Index.onMomentumScrollEnd, Part000.onMomentumScrollEnd;
    (split; [intros -> ->; reflexivity|]);
    intros [-> | ->]; simpl; rewrite ?andb_false_r; reflexivity.
Qed.

(** A step other than the beginning of a drag keeps [isScrollTo] set. *)
Lemma step_keeps_isScrollTo (rev : Revision) (T : Type) (env : Env)
  (p : Props T) (w : World T) (ev : Event) :
  is_begin_drag ev = false ->
  isScrollTo (state w) = true ->
  isScrollTo (state (fst (step_of rev env p w ev))) = true.
Proof.
  intros Hev Hs.
  destruct ev as [ | | e | | e | e | i | id]; try discriminate.
  - destruct rev; simpl;
      unfold Index.initialize, Part000.initialize;
      destruct (initialized w); simpl; exact Hs.
  - destruct rev; simpl; exact Hs.
  - destruct rev; simpl; exact Hs.
  - destruct (onMomentumScrollEnd_frame rev env p (state w) e)
      as [_ [_ [_ [_ Hi]]]].
    destruct rev; simpl in *; auto.
  - destruct rev; simpl; [exact Hs|].
    destruct (changeValueWhileDragging p); [|exact Hs].
    simpl. unfold Part000.onScroll.
    apply (newer_scrollFix_frame env p (state w) (state w) e false).
    exact Hs.
  - destruct rev; simpl; [exact Hs|].
    destruct (nth_error _ i) as [r|]; [|exact Hs].
    destruct (onPress r) as [[index animated]|]; exact Hs.
  - destruct rev; simpl;
      destruct (find_timer id (pending (host w))) as [cb|]; simpl;
      try exact Hs.
    + apply (timeout_callback_frame Older env cb (state w)). exact Hs.
    + apply (timeout_callback_frame Newer env cb (state w)). exact Hs.
Qed.

Lemma run_keeps_isScrollTo (rev : Revision) (T : Type) (env : Env)
  (evs : list (Props T * Event)) :
  no_begin_drag evs ->
  forall w : World T,
    isScrollTo (state w) = true ->
    isScrollTo (state (fst (run_of rev env w evs))) = true.
Proof.
  induction 1 as [|[p ev] rest Hev Hrest IH]; intros w Hs.
  - rewrite run_nil. exact Hs.
  - rewrite run_cons. apply IH. apply step_keeps_isScrollTo; assumption.
Qed.

(** On iOS a scroll callback whose step scrolls leaves [isScrollTo] set. *)
Lemma step_scroll_sets_flag (rev : Revision) (T : Type) (env : Env)
  (p : Props T) (w : World T) (ev : Event) :
  is_ios env = true ->
  scroll_callback ev = true ->
  scroll_commands (snd (step_of rev env p w ev)) <> [] ->
  isScrollTo (state (fst (step_of rev env p w ev))) = true.
Proof.
  intros Hios Hcb Hsc.
  destruct ev as [ | | e | | e | e | i | id]; try discriminate.
  - exfalso. apply Hsc. destruct rev; simpl;
      destruct (timer (state w)); reflexivity.
  - exfalso. apply Hsc. destruct rev; simpl;
      destruct (timer (state w)); reflexivity.
  - exfalso. apply Hsc. destruct rev; simpl;
      destruct (timer (state w)); reflexivity.
  - destruct (onMomentumScrollEnd_guard rev env p (state w) e) as [Hrun Hskip].
    destruct (isScrollTo (state w)) eqn:Ei.
    { exfalso. apply Hsc. destruct rev; simpl in *;
        rewrite (Hskip (or_introl eq_refl)); reflexivity. }
    destruct (dragStarted (state w)) eqn:Ed.
    { exfalso. apply Hsc. destruct rev; simpl in *;
        rewrite (Hskip (or_intror eq_refl)); reflexivity. }
    specialize (Hrun eq_refl eq_refl).
    destruct rev; simpl in *; rewrite Hrun in *;
      [apply older_scroll_sets_flag | apply newer_scroll_sets_flag];
      assumption.
  - exfalso. apply Hsc. destruct rev; simpl; [reflexivity|].
    destruct (changeValueWhileDragging p); [|reflexivity]. simpl.
    unfold Part000.onScroll, Part000.scrollFix, p_onValueChange.
    branches.
  - destruct rev; simpl in *;
      destruct (find_timer id (pending (host w))) as [cb|]; simpl in *;
      try (exfalso; apply Hsc; reflexivity);
      unfold Index.timeout_callback, Part000.timeout_callback in *;
      destruct (negb (momentumStarted (captured_render cb))); simpl in *;
      try (exfalso; apply Hsc; reflexivity).
    + apply older_scroll_sets_flag; assumption.
    + apply newer_scroll_sets_flag; assumption.
Qed.

(* ================================================================== *)
(** ** The programmatic-scroll flag and the debounce timer *)
(* ================================================================== *)

(** C3.  On iOS, in either revision: a call of [scrollFix] that issues a
    [scrollTo] has set [isScrollTo]; [onMomentumScrollEnd] calls
    [scrollFix] when [isScrollTo] and [dragStarted] are both false and
    otherwise only clears [momentumStarted]; so after a scroll callback
    that snapped, and whatever follows short of the user beginning a drag,
    the next momentum end only clears [momentumStarted]: no [scrollFix],
    no effect; and a step that finds [isScrollTo] set and leaves it
    cleared is [onScrollBeginDrag]. *)
Theorem snap_does_not_retrigger_on_ios :
  forall (rev : Revision) (T : Type) (env : Env),
    is_ios env = true ->
    (forall (p : Props T) (rendered live : State) (e : ScrollEvent),
        scroll_commands (snd (scrollFix_of rev env p rendered live e)) <> [] ->
        isScrollTo (fst (scrollFix_of rev env p rendered live e)) = true)
    /\ (forall (p : Props T) (s : State) (e : ScrollEvent),
           (isScrollTo s = false -> dragStarted s = false ->
            onMomentumScrollEnd_of rev env p s e
            = scrollFix_of rev env p s (setMomentumStarted false s) e)
           /\ (isScrollTo s = true \/ dragStarted s = true ->
               onMomentumScrollEnd_of rev env p s e
               = (setMomentumStarted false s, [])))
    /\ (forall (p : Props T) (w : World T) (ev : Event)
               (evs : list (Props T * Event)) (p' : Props T)
               (e : ScrollEvent),
           scroll_callback ev = true ->
           scroll_commands (snd (step_of rev env p w ev)) <> [] ->
           no_begin_drag evs ->
           let w' := fst (run_of rev env (fst (step_of rev env p w ev)) evs) in
           step_of rev env p' w' (MomentumScrollEnd e)
           = (with_state w' (setMomentumStarted false (state w')), []))
    /\ (forall (p : Props T) (w : World T) (ev : Event),
           isScrollTo (state w) = true ->
           isScrollTo (state (fst (step_of rev env p w ev))) = false ->
           ev = ScrollBeginDrag).
Proof.
  intros rev T env Hios. repeat split.
  - intros p rendered live e. apply scroll_sets_flag. exact Hios.
  - apply onMomentumScrollEnd_guard.
  - apply onMomentumScrollEnd_guard.
  - intros p w ev evs p' e Hcb Hsc Hevs w'.
    assert (Hflag : isScrollTo (state w') = true).
    { apply run_keeps_isScrollTo; [exact Hevs|].
      apply step_scroll_sets_flag; assumption. }
    destruct (onMomentumScrollEnd_guard rev env p' (state w') e)
      as [_ Hskip].
    specialize (Hskip (or_introl Hflag)).
    destruct rev; simpl in *; rewrite Hskip; reflexivity.
  - intros p w ev Hbefore Hafter.
    destruct (is_begin_drag ev) eqn:Hev.
    + destruct ev; try discriminate. reflexivity.
    + rewrite (step_keeps_isScrollTo rev env p w ev Hev Hbefore) in Hafter.
      discriminate.
Qed.

(** The letters picker on an iPhone: a momentum that ends at offset 40
    snaps to 30; the momentum end that the snap brings about, here after a
    stray momentum begin, changes nothing but [momentumStarted]. *)
Lemma snap_does_not_retrigger_on_ios_witness :
  snd (Part000.step iphone letters
         (fst (Part000.run iphone
                 (fst (Part000.step iphone letters (mount letters)
                         (MomentumScrollEnd (scroll_at (num 40)))))
                 [(letters, MomentumScrollBegin)]))
         (MomentumScrollEnd (scroll_at (num 30))))
  = [].
Proof.
  pose proof
    (proj1 (proj2 (proj2
       (@snap_does_not_retrigger_on_ios Newer string iphone eq_refl)))
       letters (mount letters) (MomentumScrollEnd (scroll_at (num 40)))
       [(letters, MomentumScrollBegin)] letters (scroll_at (num 30)))
    as H.
  refine (f_equal snd (H eq_refl _ _)).
  - vm_compute. discriminate.
  - repeat constructor.
Defined.

(** The timer when the component is rendered again between any two
    events, so that every handler reads the [timer] and [momentumStarted]
    that are current.  In every world that a mounted component of either
    revision then reaches, at most one timeout is pending.  [onScrollEndDrag] clears the
    timer in the [timer] cell before it schedules the 50 ms one, which is
    then the only one pending; [onScrollBeginDrag] and
    [onMomentumScrollBegin] clear it and schedule nothing, leaving none
    pending; no other event schedules a timeout; and a timeout that falls
    due when its callback captured a started momentum, or when the momentum
    has started since, does nothing: it runs [scrollFix] only when no
    momentum has started. *)
Theorem at_most_one_debounce_timer :
  forall (rev : Revision) (T : Type) (env : Env) (w : World T),
    reachable rev env w ->
    (List.length (pending (host w)) <= 1)%nat
    /\ (forall (p : Props T) (e : ScrollEvent),
           let r := step_of rev env p w (ScrollEndDrag e) in
           let cb := {| captured_props := p; captured_render := state w;
                        captured_event := e |} in
           snd r = match timer (state w) with
                   | Some t => [ClearTimeout t;
                                SetTimeout (next_id (host w)) cb 50]
                   | None => [SetTimeout (next_id (host w)) cb 50]
                   end
           /\ pending (host (fst r)) = [(next_id (host w), cb)]
           /\ timer (state (fst r)) = Some (next_id (host w)))
    /\ (forall (p : Props T) (ev : Event),
           ev = ScrollBeginDrag \/ ev = MomentumScrollBegin ->
           let r := step_of rev env p w ev in
           snd r = match timer (state w) with
                   | Some t => [ClearTimeout t]
                   | None => []
                   end
           /\ pending (host (fst r)) = [])
    /\ (forall (p : Props T) (ev : Event),
           scheduled (snd (step_of rev env p w ev)) <> [] ->
           exists e : ScrollEvent, ev = ScrollEndDrag e)
    /\ (forall (p : Props T) (id : TimerId) (cb : TimerCallback T),
           find_timer id (pending (host w)) = Some cb ->
           (momentumStarted (captured_render cb) = true
            \/ momentumStarted (state w) = true ->
            step_of rev env p w (Timeout id) = (fired w id, []))
           /\ (momentumStarted (captured_render cb) = false ->
               step_of rev env p w (Timeout id)
               = commit (fired w id)
                   (scrollFix_of rev env (captured_props cb)
                      (captured_render cb) (state w) (captured_event cb)))).
Proof.
  intros rev T env w Hreach.
  pose proof (reachable_timers_ok Hreach) as ok.
  split; [apply ok|].
  split; [|split; [|split]].
  - intros p e r cb. subst r cb. repeat split.
    + destruct rev; simpl; destruct (timer (state w)); reflexivity.
    + destruct rev; simpl; rewrite host_effects_app;
        unfold host_effects at 1; simpl;
        fold (host_effects (host w) (clear_timer (timer (state w))));
        rewrite (pending_cleared ok); reflexivity.
    + destruct rev; reflexivity.
  - intros p ev Hev r. subst r. split.
    + destruct Hev as [-> | ->]; destruct rev; simpl;
        destruct (timer (state w)); reflexivity.
    + destruct Hev as [-> | ->]; destruct rev; simpl;
        apply pending_cleared; exact ok.
  - intros p ev Hs.
    destruct ev as [ | | e | | e | e | i | id];
      try (exists e; reflexivity); exfalso; apply Hs.
    + destruct rev; simpl;
        unfold Index.initialize, Part000.initialize, Part000.scrollToIndex,
          sView_scrollTo, p_onValueChange;
        destruct (initialized w); simpl; [reflexivity| |reflexivity|];
        branches.
    + destruct rev; simpl; destruct (timer (state w)); reflexivity.
    + destruct rev; simpl; destruct (timer (state w)); reflexivity.
    + destruct rev; simpl;
        unfold Index.onMomentumScrollEnd, Part000.onMomentumScrollEnd,
          Index.scrollFix, Part000.scrollFix, sView_scrollTo, p_onValueChange;
        branches.
    + destruct rev; simpl; [reflexivity|].
      unfold Part000.onScroll, Part000.scrollFix, p_onValueChange.
      branches.
    + destruct rev; simpl; [reflexivity|].
      unfold Part000.scrollToIndex, sView_scrollTo.
      destruct (nth_error _ i) as [r|]; [|reflexivity].
      destruct (onPress r) as [[index animated]|]; [|reflexivity].
      simpl. branches.
    + destruct rev; simpl;
        unfold Index.timeout_callback, Part000.timeout_callback,
          Index.scrollFix, Part000.scrollFix, sView_scrollTo, p_onValueChange;
        branches.
  - intros p id cb Hcb. split.
    + intros Hm.
      assert (Hc : momentumStarted (captured_render cb) = true).
      { destruct Hm as [Hm|Hm]; [exact Hm|].
        destruct (momentumStarted (captured_render cb)) eqn:E;
          [reflexivity|].
        destruct ok as [_ H].
        destruct (H id cb (find_timer_in _ _ Hcb)) as [_ Hlive].
        rewrite (Hlive E) in Hm. discriminate. }
      destruct rev; simpl; rewrite Hcb;
        unfold Index.timeout_callback, Part000.timeout_callback;
        rewrite Hc; reflexivity.
    + intros Hc.
      destruct rev; simpl; rewrite Hcb;
        unfold Index.timeout_callback, Part000.timeout_callback;
        rewrite Hc; reflexivity.
Qed.

(** After two drags in a row one timeout is pending, the second. *)
Lemma at_most_one_debounce_timer_witness :
  (List.length
     (pending (host (fst (Index.run iphone (mount letters) two_drags))))
   <= 1)%nat.
Proof.
  exact (proj1
    (@at_most_one_debounce_timer Older string iphone
       (fst (Index.run iphone (mount letters) two_drags))
       (ex_intro _ letters (ex_intro _ two_drags eq_refl)))).
Defined.

Example two_drags_pending :
  map fst (pending (host (fst (Index.run iphone (mount letters) two_drags))))
  = [2%nat].
Proof. reflexivity. Qed.

(** C4.  A release whose momentum begins before the component is rendered
    again.  [onMomentumScrollBegin] then reads the [timer] of the render
    that created it, in which the timeout of the release is not yet
    stored: it clears nothing, and the timeout stays pending while
    [momentumStarted] is set.  When the timeout falls due its callback
    tests the [momentumStarted] it captured, which is false, and runs
    [scrollFix] although the momentum has started: over the four letters,
    released at offset 40, it scrolls to 30 and reports row 1. *)
Theorem timeout_outlives_the_momentum_begin :
  forall rev : Revision,
    let w := fst (Closure.run rev iphone (mount letters) fling) in
    pending_ids w = [1%nat]
    /\ timer (state w) = Some 1%nat
    /\ momentumStarted (state w) = true
    /\ scheduled (snd (Closure.run rev iphone (mount letters) fling))
       = [1%nat]
    /\ snd (Closure.frame rev iphone letters w [Timeout 1%nat])
       = [ScrollTo (num 30) None;
          CallOnValueChange (Some "b"%string) (num 1)].
Proof.
  intros rev. destruct rev; vm_compute; repeat split.
Qed.

(** Two releases that meet one render leave two timeouts pending: the
    second [onScrollEndDrag] reads the same [timer] as the first. *)
Example two_releases_of_one_render :
  pending_ids
    (fst (Closure.frame Older iphone letters (mount letters)
            [ScrollEndDrag (scroll_at (num 40)); ScrollBeginDrag;
             ScrollEndDrag (scroll_at (num 70))]))
  = [1%nat; 2%nat].
Proof. reflexivity. Qed.

(* ================================================================== *)
(** ** Updates while the scroll is in progress *)
(* ================================================================== *)

(** C10, as the newer revision has it.  The ScrollView gets [onScroll]
    exactly when [changeValueWhileDragging] holds, and [onScroll] calls
    [scrollFix] with [setScrollTo = false].  On that path [scrollFix]
    issues no [scrollTo] and leaves [isScrollTo], the drag and momentum
    flags and the timer as they were; when the resolved index differs from
    the selected one it stores it and calls [onValueChange].  Among the
    scroll callbacks and the timeout, a step that issues a [scrollTo] is
    the end of a momentum or the timeout after the end of a drag.  (A press
    on a row and the effect run at mount scroll as well, through
    [scrollToIndex].) *)
Theorem onScroll_updates_without_scrolling :
  forall (T : Type) (env : Env) (p : Props T),
    (forall s : State,
        onScroll_attached (Part000.render env p s)
        = changeValueWhileDragging p)
    /\ (forall (w : World T) (e : ScrollEvent),
           Part000.step env p w (Scroll e)
           = if changeValueWhileDragging p
             then commit w
                    (Part000.scrollFix env p (state w) (state w) e false)
             else (w, []))
    /\ (forall (rendered live : State) (e : ScrollEvent),
           let r := Part000.scrollFix env p rendered live e false in
           scroll_commands (snd r) = []
           /\ isScrollTo (fst r) = isScrollTo live
           /\ same_flags live (fst r))
    /\ (forall (w : World T) (e : ScrollEvent),
           let r := Part000.step env p w (Scroll e) in
           scroll_commands (snd r) = []
           /\ isScrollTo (state (fst r)) = isScrollTo (state w)
           /\ host (fst r) = host w)
    /\ (forall (rendered live : State) (e : ScrollEvent)
               (c : E.NativeScrollPoint) (y0 : number),
           E.contentOffset (E.nativeEvent e) = Some c ->
           E.y c = Some y0 ->
           let index := Math_round (js_div y0 (itemHeight p)) in
           strict_eq (selectedIndex rendered) index = false ->
           Part000.scrollFix env p rendered live e false
           = (setSelectedIndex index live,
              p_onValueChange p (array_get (data p) index) index))
    /\ (forall (w : World T) (ev : Event),
           scroll_callback ev = true ->
           scroll_commands (snd (Part000.step env p w ev)) <> [] ->
           end_of_scroll ev = true).
Proof.
  intros T env p.
  assert (Hframe : forall (rendered live : State) (e : ScrollEvent),
             let r := Part000.scrollFix env p rendered live e false in
             scroll_commands (snd r) = []
             /\ isScrollTo (fst r) = isScrollTo live
             /\ same_flags live (fst r)).
  { intros rendered live e.
    unfold Part000.scrollFix, same_flags, p_onValueChange.
    branches; repeat split. }
  split; [reflexivity|].
  split; [reflexivity|].
  split; [exact Hframe|].
  split; [|split].
  - intros w e. simpl.
    destruct (changeValueWhileDragging p); [|repeat split].
    unfold Part000.onScroll.
    destruct (Hframe (state w) (state w) e) as [Hs [Hi _]].
    destruct (newer_scrollFix_frame env p (state w) (state w) e false)
      as [_ [Hf _]].
    rewrite (commit_without_timers w _ Hf).
    repeat split; assumption.
  - intros rendered live e c y0 Hc Hy index Hne.
    rewrite (newer_false env p rendered live e Hc Hy).
    fold index. rewrite Hne. reflexivity.
  - intros w ev Hcb Hsc.
    destruct ev as [ | | e | | e | e | i | id];
      try discriminate; try reflexivity; exfalso; apply Hsc; simpl.
    + destruct (timer (state w)); reflexivity.
    + destruct (timer (state w)); reflexivity.
    + destruct (timer (state w)); reflexivity.
    + destruct (changeValueWhileDragging p); [|reflexivity].
      apply (Hframe (state w) (state w) e).
Qed.

(** A scroll passing offset 40 while the first row is selected: row 1 is
    selected and reported, nothing is scrolled. *)
Lemma onScroll_updates_without_scrolling_witness :
  Part000.scrollFix iphone letters (initial_state letters)
    (initial_state letters) (scroll_at (num 40)) false
  = (setSelectedIndex (num 1) (initial_state letters),
     [CallOnValueChange (Some "b"%string) (num 1)]).
Proof.
  exact (proj1 (proj2 (proj2 (proj2 (proj2
    (@onScroll_updates_without_scrolling string iphone letters)))))
    (initial_state letters) (initial_state letters) (scroll_at (num 40))
    {| E.y := Some (num 40) |} (num 40) eq_refl eq_refl eq_refl).
Defined.

(** C10 as stated fails in its last clause: a press on the third row is no
    end-of-scroll handler, and it scrolls to that row. *)
Lemma press_scrolls_counterexample :
  end_of_scroll (Press 2) = false
  /\ snd (Part000.step iphone letters (mount letters) (Press 2))
     = [ScrollTo (num 60) (Some true)].
Proof. split; reflexivity. Qed.

(* ================================================================== *)
(** ** Sizing and the initial index *)
(* ================================================================== *)

(** C6, as the code has it.  [wrapperHeight] is the [containerHeight] prop
    when that is truthy; otherwise [Number(style.height)] when the style
    prop is an object with a [height] key whose value [isNumeric] accepts
    and whose number is truthy, that is neither zero nor NaN; otherwise
    [itemHeight * 5].  A [containerHeight] of 0 with a style height of 0,
    or with a string that [isNumeric] rejects, comes out as
    [itemHeight * 5]. *)
Theorem wrapperHeight_fallback_chain :
  forall (T : Type) (p : Props T),
    let hv := style_property (P.style p) "height" in
    let numeric := isViewStyle (P.style p) && isNumeric hv in
    (forall c : number,
        P.containerHeight p = Some c -> truthy c = true ->
        wrapperHeight p = c)
    /\ ((P.containerHeight p = None
         \/ exists c : number,
             P.containerHeight p = Some c /\ truthy c = false) ->
        (numeric = true -> truthy (Number_ hv) = true ->
         wrapperHeight p = Number_ hv)
        /\ (numeric = false \/ truthy (Number_ hv) = false ->
            wrapperHeight p = js_mul (itemHeight p) (num 5)))
    /\ (forall s : string,
           P.containerHeight p = Some (num 0) ->
           P.style p = of_height (VNumber (num 0))
           \/ (P.style p = of_height (VString s)
               /\ isNumeric (VString s) = false) ->
           wrapperHeight p = js_mul (itemHeight p) (num 5)).
Proof.
  intros T p hv numeric.
  assert (Hfall : forall rest : number,
             P.containerHeight p = None
             \/ (exists c : number,
                    P.containerHeight p = Some c /\ truthy c = false) ->
             or_number (P.containerHeight p) rest = rest).
  { intros rest [Hn|[c [Hc Hf]]]; unfold or_number, js_or.
    - rewrite Hn. reflexivity.
    - rewrite Hc, Hf. reflexivity. }
  assert (Hstyle : styleHeight (P.style p)
                   = if numeric then Number_ hv else num 0) by reflexivity.
  split; [|split].
  - intros c Hc Ht. unfold wrapperHeight, or_number, js_or.
    rewrite Hc, Ht, Ht. reflexivity.
  - intros Hfalsy. split.
    + intros Hn Ht. unfold wrapperHeight.
      rewrite (Hfall _ Hfalsy), Hstyle, Hn. unfold js_or. rewrite Ht.
      reflexivity.
    + intros Hn. unfold wrapperHeight.
      rewrite (Hfall _ Hfalsy), Hstyle. unfold js_or.
      destruct Hn as [Hn|Hn].
      * rewrite Hn. reflexivity.
      * destruct numeric; [rewrite Hn|]; reflexivity.
  - intros s Hc Hs. unfold wrapperHeight.
    rewrite Hfall by (right; exists (num 0); split; [exact Hc|reflexivity]).
    unfold styleHeight, js_or.
    destruct Hs as [Hs|[Hs Hnum]]; rewrite Hs.
    + reflexivity.
    + change (style_property (of_height (VString s)) "height")
        with (VString s).
      rewrite Hnum, andb_false_r. reflexivity.
Qed.

(** No [containerHeight], a style of height ["120"]: the wrapper is 120
    high. *)
Lemma wrapperHeight_fallback_chain_witness :
  wrapperHeight (sized None (of_height (VString "120"))) = num 120.
Proof.
  exact (proj1 (proj1 (proj2
    (@wrapperHeight_fallback_chain string
       (sized None (of_height (VString "120")))))
    (or_introl eq_refl)) eq_refl eq_refl).
Defined.

Example wrapperHeight_of_percent :
  wrapperHeight (sized (Some (num 0)) (of_height (VString "50%"))) = num 150.
Proof. reflexivity. Qed.

Example wrapperHeight_of_blank :
  wrapperHeight (sized None (of_height (VString "  "))) = num 150.
Proof. reflexivity. Qed.

Example wrapperHeight_of_style_array :
  wrapperHeight (sized None (StyleArray [[("height"%string, VNumber (num 99))]]))
  = num 150.
Proof. reflexivity. Qed.

(** C6 as stated fails at a height of NaN: [isNumeric] accepts it, it is
    not zero, the style is an object, and yet the wrapper is not
    [Number(NaN)] but [itemHeight * 5]. *)
Lemma wrapperHeight_nan_counterexample :
  let p := sized None (of_height (VNumber NaN)) in
  let hv := style_property (P.style p) "height" in
  isViewStyle (P.style p) = true
  /\ isNumeric hv = true
  /\ strict_eq (Number_ hv) (num 0) = false
  /\ wrapperHeight p = num 150
  /\ wrapperHeight p <> Number_ hv.
Proof.
  repeat split. discriminate.
Qed.

Lemma Qle_bool_false (a b : Q) : Qle_bool a b = false -> b < a.
Proof.
  intros H. apply Qnot_le_lt. intros L. apply Qle_bool_iff in L. congruence.
Qed.

(** Turns the boolean comparisons in sight into facts about rationals. *)
Ltac q_facts :=
  repeat match goal with
         | H : Qle_bool _ _ = true |- _ => apply Qle_bool_iff in H
         | H : Qle_bool _ _ = false |- _ => apply Qle_bool_false in H
         | H : context [Qred _] |- _ => rewrite Qred_correct in H
         | |- context [Qred _] => rewrite Qred_correct
         | |- Qle_bool _ _ = true => apply Qle_bool_iff
         end.

Ltac split_comparisons :=
  repeat match goal with
         | |- context [Qle_bool ?a ?b] =>
             let E := fresh "E" in destruct (Qle_bool a b) eqn:E; simpl
         end.

(** [Math.max(0, Math.min(x, m))] for an [x] that is not NaN. *)
Lemma clamp_range (x : number) (m : Q) :
  x <> NaN ->
  let r := Math_max (Fin 0) (Math_min x (Fin m)) in
  (0 <= m -> js_le (Fin 0) r = true /\ js_le r (Fin m) = true)
  /\ (m < 0 -> r = Fin 0).
Proof.
  intros Hnan r. subst r.
  unfold Math_max, Math_min, js_lt, js_le.
  destruct x as [x| | |]; try congruence; simpl; split_comparisons;
    (split; [intros Hm; split | intros Hm]);
    try reflexivity; q_facts; try lra; exfalso; lra.
Qed.

(** The clamp of [constrainIndex], for an index that is not NaN and a list
    of [n] items. *)
Lemma constrainIndex_range (index : option number) (n : nat) :
  index <> Some NaN ->
  let r := constrainIndex index (num (Z.of_nat n)) in
  (n <> 0%nat ->
   js_le (num 0) r = true
   /\ js_le r (js_sub (num (Z.of_nat n)) (num 1)) = true)
  /\ (n = 0%nat -> r = num 0).
Proof.
  intros Hnan r. subst r.
  assert (Hx : nullish_or index (num 0) <> NaN)
    by (destruct index as [[x| | |]|]; simpl; try discriminate;
        intros _; apply Hnan; reflexivity).
  unfold constrainIndex, js_sub, num at 3 4.
  set (m := Qred (inject_Z (Z.of_nat n) - inject_Z 1)).
  assert (Hm : m == inject_Z (Z.of_nat n) - 1)
    by (unfold m; rewrite Qred_correct; reflexivity).
  destruct (@clamp_range (nullish_or index (num 0)) m Hx) as [Hin Hout].
  split.
  - intros Hpos. apply Hin. rewrite Hm.
    assert (H1 : inject_Z 1 <= inject_Z (Z.of_nat n))
      by (rewrite <- Zle_Qle; lia).
    change (inject_Z 1) with 1 in H1.
    clear - H1. set (q := inject_Z (Z.of_nat n)) in *. lra.
  - intros ->. apply Hout. rewrite Hm. reflexivity.
Qed.

Lemma constrainIndex_nan (dataLength : number) :
  constrainIndex (Some NaN) dataLength = NaN.
Proof. destruct dataLength; reflexivity. Qed.

(** The clamp.  The initial [selectedIndex] is
    [Math.max(0, Math.min(selectedIndex ?? 0, data.length - 1))] for every
    [data] and every [selectedIndex] prop, undefined included.  For a prop
    that is not NaN it lies in [[0, data.length - 1]] when [data] is not
    empty, and it is 0 when [data] is empty, which is above
    [data.length - 1 = -1].  For the prop NaN it is NaN. *)
Theorem initial_selectedIndex_is_clamped :
  forall (T : Type) (p : Props T),
    let s0 := selectedIndex (state (mount p)) in
    let last := js_sub (array_length (data p)) (num 1) in
    s0 = Math_max (num 0)
           (Math_min (nullish_or (P.selectedIndex p) (num 0)) last)
    /\ (P.selectedIndex p <> Some NaN ->
        (data p <> [] -> js_le (num 0) s0 = true /\ js_le s0 last = true)
        /\ (data p = [] -> s0 = num 0 /\ js_le s0 last = false))
    /\ (P.selectedIndex p = Some NaN -> s0 = NaN).
Proof.
  intros T p s0 last. subst s0 last. simpl.
  split; [reflexivity|]. split.
  - intros Hnan.
    destruct (@constrainIndex_range (P.selectedIndex p)
                (List.length (data p)) Hnan) as [Hin Hout].
    split.
    + intros Hne. apply Hin. destruct (data p); [congruence|discriminate].
    + intros Hnil.
      assert (Hz : List.length (data p) = 0%nat)
        by (rewrite Hnil; reflexivity).
      change (array_length (data p))
        with (num (Z.of_nat (List.length (data p)))).
      rewrite (Hout Hz), Hz. split; reflexivity.
  - intros ->. apply constrainIndex_nan.
Qed.

(** Four letters asked to start at row 7 start at row 3. *)
Lemma initial_selectedIndex_is_clamped_witness :
  selectedIndex (state (mount (letters_at (num 7)))) = num 3
  /\ js_le (num 0) (selectedIndex (state (mount (letters_at (num 7)))))
     = true
  /\ js_le (selectedIndex (state (mount (letters_at (num 7))))) (num 3)
     = true.
Proof.
  pose proof (@initial_selectedIndex_is_clamped string (letters_at (num 7)))
    as [Hval [Hrange _]].
  destruct Hrange as [Hin _]; [discriminate|].
  destruct Hin as [Hlo Hhi]; [discriminate|].
  split; [exact Hval|]. split; [exact Hlo | exact Hhi].
Defined.

Example initial_selectedIndex_of_bare :
  selectedIndex (state (mount bare)) = num 0.
Proof. reflexivity. Qed.

(** C8.  Asked to start at NaN, the picker of four letters does not
    start in [[0, 3]]: [constrainIndex] returns NaN, against its comment
    that it limits the index between 0 and [data.length - 1], and NaN is the
    initial [selectedIndex].  No row is then selected, and the effect run
    after mounting hands the owner [undefined] with the index NaN and
    scrolls to the offset NaN. *)
Theorem nan_selectedIndex_is_not_clamped :
  data (letters_at NaN) <> []
  /\ constrainIndex (Some NaN) (array_length (data (letters_at NaN))) = NaN
  /\ selectedIndex (state (mount (letters_at NaN))) = NaN
  /\ js_le (num 0) (selectedIndex (state (mount (letters_at NaN)))) = false
  /\ js_le (selectedIndex (state (mount (letters_at NaN))))
           (js_sub (array_length (data (letters_at NaN))) (num 1)) = false
  /\ (forall rev : Revision,
         selected_rows
           (render_of rev iphone (letters_at NaN)
              (state (mount (letters_at NaN)))) = []
         /\ snd (step_of rev iphone (letters_at NaN)
                   (mount (letters_at NaN)) RunEffect)
            = [CallOnValueChange None NaN; ScrollTo NaN (Some false)]).
Proof.
  repeat split; try discriminate; destruct rev; reflexivity.
Qed.

(* ================================================================== *)
(** ** The rows and the highlight *)
(* ================================================================== *)

(** Two row indices that are [===] one number are one index. *)
Lemma strict_eq_index_unique (i j : nat) (sel : number) :
  strict_eq (num (Z.of_nat i)) sel = true ->
  strict_eq (num (Z.of_nat j)) sel = true ->
  i = j.
Proof.
  destruct sel as [x| | |]; simpl; try discriminate.
  intros Hi Hj. apply Qeq_bool_iff in Hi, Hj.
  assert (H : inject_Z (Z.of_nat i) == inject_Z (Z.of_nat j))
    by (rewrite Hi, Hj; reflexivity).
  apply (proj1 (inject_Z_injective _ _)) in H. lia.
Qed.

Section Rows.
Variable T : Type.
Variable f : T -> number -> Row T.
Variable sel : number.
Variable h : number.
Hypothesis f_selected :
  forall (a : T) (index : number),
    row_selected (f a index) = strict_eq index sel.
Hypothesis f_height :
  forall (a : T) (index : number), row_height (f a index) = h.

Lemma nth_error_map_from (l : list T) :
  forall (i k : nat),
    nth_error (map_from f i l) k
    = option_map (fun a => f a (num (Z.of_nat (i + k)))) (nth_error l k).
Proof.
  induction l as [|a l IH]; intros i k.
  - destruct k; reflexivity.
  - destruct k; simpl.
    + rewrite Nat.add_0_r. reflexivity.
    + rewrite IH. rewrite Nat.add_succ_r. reflexivity.
Qed.

Lemma selected_none (l : list T) :
  forall i : nat,
    (forall k : nat, (i <= k < i + List.length l)%nat ->
                     strict_eq (num (Z.of_nat k)) sel = false) ->
    filter (@row_selected T) (map_from f i l) = [].
Proof.
  induction l as [|a l IH]; intros i H; [reflexivity|].
  simpl. rewrite f_selected, (H i) by (simpl; lia).
  apply IH. intros k Hk. apply H. simpl. lia.
Qed.

Lemma selected_at_most_one (l : list T) :
  forall i : nat,
    (List.length (filter (@row_selected T) (map_from f i l)) <= 1)%nat.
Proof.
  induction l as [|a l IH]; intros i; simpl; [lia|].
  rewrite f_selected.
  destruct (strict_eq (num (Z.of_nat i)) sel) eqn:E; [|apply IH].
  rewrite selected_none; [simpl; lia|].
  intros k Hk.
  destruct (strict_eq (num (Z.of_nat k)) sel) eqn:Ek; [|reflexivity].
  pose proof (strict_eq_index_unique _ _ _ E Ek). lia.
Qed.

Lemma selected_one (l : list T) :
  forall i : nat,
    (exists k : nat, (i <= k < i + List.length l)%nat
                     /\ strict_eq (num (Z.of_nat k)) sel = true) ->
    List.length (filter (@row_selected T) (map_from f i l)) = 1%nat.
Proof.
  induction l as [|a l IH]; intros i [k [Hk Ek]]; simpl in Hk |- *; [lia|].
  rewrite f_selected.
  destruct (strict_eq (num (Z.of_nat i)) sel) eqn:E.
  - rewrite selected_none; [reflexivity|].
    intros j Hj.
    destruct (strict_eq (num (Z.of_nat j)) sel) eqn:Ej; [|reflexivity].
    pose proof (strict_eq_index_unique _ _ _ E Ej). lia.
  - apply IH. exists k. split; [|exact Ek].
    assert (k <> i) by (intros ->; congruence). lia.
Qed.

Lemma heights_map_from (l : list T) :
  forall i : nat,
    map (@row_height T) (map_from f i l) = repeat h (List.length l).
Proof.
  induction l as [|a l IH]; intros i; simpl; [reflexivity|].
  rewrite f_height, IH. reflexivity.
Qed.

End Rows.

Lemma firstn_repeat_le (A : Type) (a : A) (k n : nat) :
  (k <= n)%nat -> firstn k (repeat a n) = repeat a k.
Proof.
  revert n. induction k as [|k IH]; intros n Hk; [reflexivity|].
  destruct n as [|n]; [lia|]. simpl. rewrite IH by lia. reflexivity.
Qed.

(** A spacer of height [sp] and [k] rows of height [h] end at
    [sp + k * h]. *)
Lemma stacked_rows (h : Q) (k : nat) :
  forall sp : Q,
    exists t : Q,
      fold_left js_add (repeat (Fin h) k) (Fin sp) = Fin t
      /\ t == sp + inject_Z (Z.of_nat k) * h.
Proof.
  induction k as [|k IH]; intros sp.
  - exists sp. split; [reflexivity|]. simpl. ring.
  - destruct (IH (Qred (sp + h))) as [t [Ht Hq]].
    exists t. split; [exact Ht|].
    rewrite Hq, Qred_correct, Nat2Z.inj_succ. unfold Z.succ.
    rewrite inject_Z_plus. change (inject_Z 1) with 1. ring.
Qed.

Lemma renderItem_selected (rev : Revision) (T : Type) (p : Props T)
  (s : State) (item : T) (index : number) :
  row_selected (renderItem_of rev p s item index)
  = strict_eq index (selectedIndex s).
Proof.
  destruct rev; simpl;
    unfold Index.renderItem, Part000.renderItem, row_selected; simpl;
    destruct (P.renderItem p); reflexivity.
Qed.

Lemma renderItem_height (rev : Revision) (T : Type) (p : Props T)
  (s : State) (item : T) (index : number) :
  row_height (renderItem_of rev p s item index) = itemHeight p.
Proof. destruct rev; reflexivity. Qed.

Lemma rows_of_render (rev : Revision) (T : Type) (env : Env) (p : Props T)
  (s : State) :
  rows (render_of rev env p s) = map_from (renderItem_of rev p s) 0 (data p).
Proof. destruct rev; reflexivity. Qed.

(** Scrolled to the offset [k * itemHeight] that [scrollFix] snaps to, row
    [k] begins where the highlight begins. *)
Lemma snapped_row_meets_highlight (rev : Revision) (T : Type) (env : Env)
  (p : Props T) (s : State) (wh h : Q) (k : nat) :
  wrapperHeight p = Fin wh ->
  itemHeight p = Fin h ->
  (k < List.length (data p))%nat ->
  js_sub (row_top (render_of rev env p s) k)
         (js_mul (num (Z.of_nat k)) (itemHeight p))
  = top (highlight (render_of rev env p s)).
Proof.
  intros Hw Hh Hk. unfold row_top.
  rewrite <- firstn_map, rows_of_render.
  rewrite (@heights_map_from _ (renderItem_of rev p s) (itemHeight p)
             (fun a index => renderItem_height rev p s a index)).
  rewrite firstn_repeat_le by lia.
  assert (Hsp : spacer_before (render_of rev env p s)
                = Fin (Qred (Qred (wh - h) / inject_Z 2))).
  { destruct rev; simpl; unfold verticalSpacing; rewrite Hw, Hh;
      reflexivity. }
  assert (Htop : top (highlight (render_of rev env p s))
                 = Fin (Qred (Qred (wh - h) / inject_Z 2))).
  { destruct rev; simpl; rewrite Hw, Hh; reflexivity. }
  rewrite Hsp, Htop, Hh.
  destruct (stacked_rows h k (Qred (Qred (wh - h) / inject_Z 2)))
    as [t [Ht Hq]].
  rewrite Ht. unfold js_sub, js_mul, num. f_equal.
  apply Qred_complete.
  rewrite Hq, !Qred_correct. ring.
Qed.

(** C7, as the code has it.  In either revision [renderItem] is given
    [isSelected = (index === selectedIndex)], and so is the default text's
    selected style; no two rows are selected, exactly one is when
    [selectedIndex] is the index of a row, and none when it is not.  The
    highlight is at [top = (wrapperHeight - itemHeight) / 2] with height
    [itemHeight]: that is the height of the spacer before the first row
    and the height of every row, so with the content scrolled to
    [k * itemHeight], where the snap puts row [k], the row begins where the
    highlight begins (for finite heights). *)
Theorem highlight_marks_the_selected_row :
  forall (rev : Revision) (T : Type) (env : Env) (p : Props T) (s : State),
    let view := render_of rev env p s in
    (forall (item : T) (index : number),
        row_selected (renderItem_of rev p s item index)
        = strict_eq index (selectedIndex s)
        /\ (P.renderItem p = true ->
            element (renderItem_of rev p s item index)
            = RenderItem item index (strict_eq index (selectedIndex s))))
    /\ (forall (k : nat) (row : Row T),
           nth_error (rows view) k = Some row ->
           row_selected row = strict_eq (num (Z.of_nat k)) (selectedIndex s)
           /\ row_height row = height (highlight view))
    /\ (List.length (selected_rows view) <= 1)%nat
    /\ ((exists k : nat,
            (k < List.length (data p))%nat
            /\ strict_eq (num (Z.of_nat k)) (selectedIndex s) = true) ->
        List.length (selected_rows view) = 1%nat)
    /\ ((forall k : nat,
            (k < List.length (data p))%nat ->
            strict_eq (num (Z.of_nat k)) (selectedIndex s) = false) ->
        selected_rows view = [])
    /\ top (highlight view)
       = js_div (js_sub (wrapperHeight p) (itemHeight p)) (num 2)
    /\ height (highlight view) = itemHeight p
    /\ spacer_before view = top (highlight view)
    /\ (forall (wh h : Q) (k : nat),
           wrapperHeight p = Fin wh ->
           itemHeight p = Fin h ->
           (k < List.length (data p))%nat ->
           js_sub (row_top view k) (js_mul (num (Z.of_nat k)) (itemHeight p))
           = top (highlight view)).
Proof.
  intros rev T env p s view. subst view.
  pose proof (fun a index => renderItem_selected rev p s a index) as Hsel.
  split; [|split; [|split; [|split; [|split; [|split; [|split; [|split]]]]]]].
  - intros item index. split; [apply renderItem_selected|].
    intros Hr. destruct rev; simpl;
      unfold Index.renderItem, Part000.renderItem; simpl;
      rewrite Hr; reflexivity.
  - intros k row Hrow.
    rewrite rows_of_render, nth_error_map_from in Hrow.
    destruct (nth_error (data p) k) as [a|]; [|discriminate].
    simpl in Hrow. inversion Hrow; subst row.
    split; [apply renderItem_selected|].
    rewrite renderItem_height. destruct rev; reflexivity.
  - unfold selected_rows. rewrite rows_of_render.
    apply (@selected_at_most_one _ (renderItem_of rev p s) (selectedIndex s) Hsel).
  - intros [k [Hk Ek]].
    unfold selected_rows. rewrite rows_of_render.
    apply (@selected_one _ (renderItem_of rev p s) (selectedIndex s) Hsel).
    exists k. split; [lia | exact Ek].
  - intros Hnone.
    unfold selected_rows. rewrite rows_of_render.
    apply (@selected_none _ (renderItem_of rev p s) (selectedIndex s) Hsel).
    intros k Hk. apply Hnone. lia.
  - destruct rev; reflexivity.
  - destruct rev; reflexivity.
  - destruct rev; reflexivity.
  - intros wh h k. apply snapped_row_meets_highlight.
Qed.

(** The letters picker with row 1 selected: one row is highlighted, and
    scrolled to offset 30 it begins at 60, where the highlight is. *)
Lemma highlight_marks_the_selected_row_witness :
  List.length
    (selected_rows
       (Part000.render iphone letters
          (setSelectedIndex (num 1) (initial_state letters)))) = 1%nat
  /\ js_sub (row_top (Part000.render iphone letters
                        (setSelectedIndex (num 1) (initial_state letters)))
                     1)
            (js_mul (num 1) (itemHeight letters))
     = num 60.
Proof.
  pose proof (@highlight_marks_the_selected_row Newer string iphone letters
                (setSelectedIndex (num 1) (initial_state letters)))
    as [_ [_ [_ [Hone [_ [_ [_ [_ Hgeo]]]]]]]].
  split.
  - apply Hone. exists 1%nat. split; [simpl; lia | reflexivity].
  - exact (Hgeo 150 30 1%nat eq_refl eq_refl (le_n_S _ _ (le_n_S _ _ (le_0_n _)))).
Defined.

(** C7 as stated fails where no row carries the selected index: the
    picker without props has no rows and highlights none, and four letters
    asked to start at index 1.5 highlight none either. *)
Lemma no_row_highlighted_counterexample :
  List.length
    (selected_rows (Part000.render iphone bare (state (mount bare))))
  = 0%nat
  /\ List.length
       (selected_rows
          (Part000.render iphone (letters_at (Fin (3 # 2)))
             (state (mount (letters_at (Fin (3 # 2)))))))
     = 0%nat.
Proof. split; reflexivity. Qed.

(* ================================================================== *)
(** ** Further facts: numbers at a row boundary *)
(* ================================================================== *)

Lemma Qfloor_half (k : Z) : Qfloor (inject_Z k + (1 # 2)) = k.
Proof.
  pose proof (Qfloor_le (inject_Z k + (1 # 2))) as Hl.
  pose proof (Qlt_floor (inject_Z k + (1 # 2))) as Hu.
  set (z := Qfloor (inject_Z k + (1 # 2))) in *.
  rewrite inject_Z_plus in Hu. change (inject_Z 1) with 1 in Hu.
  assert (H1 : inject_Z z < inject_Z (k + 1)).
  { rewrite inject_Z_plus. change (inject_Z 1) with 1.
    set (a := inject_Z z) in *. set (b := inject_Z k) in *. lra. }
  assert (H2 : inject_Z k < inject_Z (z + 1)).
  { rewrite inject_Z_plus. change (inject_Z 1) with 1.
    set (a := inject_Z z) in *. set (b := inject_Z k) in *. lra. }
  rewrite <- Zlt_Qlt in H1, H2. lia.
Qed.

Lemma Qeq_bool_refl (x : Q) : Qeq_bool x x = true.
Proof. apply Qeq_bool_iff. reflexivity. Qed.

Lemma Qeq_bool_pos (h : Q) : 0 < h -> Qeq_bool h 0 = false.
Proof.
  intros Hh. destruct (Qeq_bool h 0) eqn:E; [|reflexivity].
  apply Qeq_bool_iff in E. lra.
Qed.

Lemma strict_eq_refl (x : number) : x <> NaN -> strict_eq x x = true.
Proof.
  destruct x; simpl; intros H; try reflexivity; try congruence.
  apply Qeq_bool_refl.
Qed.

(** A product that is a number has factors that are numbers. *)
Lemma js_mul_number (a b : number) :
  strict_eq (js_mul a b) (js_mul a b) = true -> a <> NaN.
Proof. intros H ->. discriminate H. Qed.

(** [data[k]] for a natural [k] is the [k]-th element or undefined. *)
Lemma array_get_nat (T : Type) (d : list T) (k : nat) :
  array_get d (num (Z.of_nat k)) = nth_error d k.
Proof.
  unfold array_get, num. rewrite Qfloor_Z, Qeq_bool_refl.
  assert (H : (0 <=? Z.of_nat k)%Z = true) by (apply Z.leb_le; lia).
  rewrite H, Nat2Z.id. reflexivity.
Qed.

Lemma array_get_int (T : Type) (d : list T) (x : Q) (k : nat) :
  x == inject_Z (Z.of_nat k) -> array_get d (Fin x) = nth_error d k.
Proof.
  intros Hx. unfold array_get.
  assert (Hf : Qfloor x = Z.of_nat k) by (rewrite Hx; apply Qfloor_Z).
  rewrite Hf.
  assert (He : Qeq_bool x (inject_Z (Z.of_nat k)) = true)
    by (apply Qeq_bool_iff; exact Hx).
  assert (H : (0 <=? Z.of_nat k)%Z = true) by (apply Z.leb_le; lia).
  rewrite He, H, Nat2Z.id. reflexivity.
Qed.

(* ================================================================== *)
(** ** Further facts: snapping *)
(* ================================================================== *)

(** [scrollFix(e)] on an event at offset [y0], in either revision. *)
Lemma scrollFix_at (rev : Revision) (T : Type) (env : Env) (p : Props T)
  (rendered live : State) (y0 : number) :
  scrollFix_of rev env p rendered live (scroll_at y0)
  = (let index := Math_round (js_div y0 (itemHeight p)) in
     let target := js_mul index (itemHeight p) in
     let snap := negb (strict_eq target y0) in
     let change := negb (strict_eq (selectedIndex rendered) index) in
     let live1 :=
       if snap && is_ios env then setIsScrollTo true live else live in
     (if change then setSelectedIndex index live1 else live1,
      (if snap then sView_scrollTo env target None else [])
      ++ (if change
          then p_onValueChange p (array_get (data p) index) index
          else []))).
Proof.
  destruct rev; simpl; unfold Index.scrollFix, Part000.scrollFix; simpl;
    destruct (strict_eq (js_mul (Math_round (js_div y0 (itemHeight p)))
                                (itemHeight p)) y0);
    destruct (strict_eq (selectedIndex rendered)
                        (Math_round (js_div y0 (itemHeight p))));
    destruct (is_ios env); simpl; rewrite ?app_nil_r; reflexivity.
Qed.

(** When the rendered index is already [===] the resolved one and the
    offset is already the target, [scrollFix] does nothing at all. *)
Lemma scrollFix_settled (rev : Revision) (T : Type) (env : Env)
  (p : Props T) (rendered live : State) (y0 : number) :
  strict_eq (js_mul (Math_round (js_div y0 (itemHeight p))) (itemHeight p))
            y0 = true ->
  strict_eq (selectedIndex rendered) (Math_round (js_div y0 (itemHeight p)))
  = true ->
  scrollFix_of rev env p rendered live (scroll_at y0) = (live, []).
Proof.
  intros Ht Hi. rewrite scrollFix_at. simpl. rewrite Ht, Hi. reflexivity.
Qed.

(** After [scrollFix] the selected index is [===] the resolved one, when
    the live state has the rendered index and the resolved one is a
    number equal to itself. *)
Lemma scrollFix_leaves_index (rev : Revision) (T : Type) (env : Env)
  (p : Props T) (rendered live : State) (y0 : number) :
  selectedIndex live = selectedIndex rendered ->
  strict_eq (Math_round (js_div y0 (itemHeight p)))
            (Math_round (js_div y0 (itemHeight p))) = true ->
  strict_eq
    (selectedIndex (fst (scrollFix_of rev env p rendered live (scroll_at y0))))
    (Math_round (js_div y0 (itemHeight p))) = true.
Proof.
  intros Hl Hrefl. rewrite scrollFix_at. cbv zeta.
  destruct (strict_eq (selectedIndex rendered)
                      (Math_round (js_div y0 (itemHeight p)))) eqn:E;
    cbn [negb fst].
  - destruct (negb _ && is_ios env); simpl; rewrite Hl; exact E.
  - exact Hrefl.
Qed.

Lemma step_momentum_end (rev : Revision) (T : Type) (env : Env)
  (p : Props T) (w : World T) (e : ScrollEvent) :
  step_of rev env p w (MomentumScrollEnd e)
  = commit w (onMomentumScrollEnd_of rev env p (state w) e).
Proof. destruct rev; reflexivity. Qed.

(** X1.  Snapping is idempotent wherever the arithmetic finds its row
    again.  Let [scrollFix] resolve the index [Math.round(y / h)] and the
    offset [index * h], a number, and let [Math.round(index * h / h)] be
    that index again.  Then a call of [scrollFix] at the offset it has
    just chosen, from the state it has just left, changes no state and
    issues nothing: no second [scrollTo], no second [onValueChange]. *)
Theorem snap_is_idempotent :
  forall (rev : Revision) (T : Type) (env : Env) (p : Props T) (s : State)
         (y0 : number),
    let index := Math_round (js_div y0 (itemHeight p)) in
    let target := js_mul index (itemHeight p) in
    strict_eq target target = true ->
    Math_round (js_div target (itemHeight p)) = index ->
    let s1 := fst (scrollFix_of rev env p s s (scroll_at y0)) in
    scrollFix_of rev env p s1 s1 (scroll_at target) = (s1, []).
Proof.
  intros rev T env p s y0 index target Hnum Hback s1.
  apply scrollFix_settled; fold target; rewrite Hback.
  - exact Hnum.
  - apply scrollFix_leaves_index; [reflexivity|].
    apply strict_eq_refl. exact (@js_mul_number _ _ Hnum).
Qed.

(** Rows of height 30: a scroll let go at 40 is snapped to 30, and at 30
    nothing more happens. *)
Lemma snap_is_idempotent_witness :
  Index.scrollFix iphone letters
    (fst (Index.scrollFix iphone letters (initial_state letters)
            (initial_state letters) (scroll_at (num 40))))
    (fst (Index.scrollFix iphone letters (initial_state letters)
            (initial_state letters) (scroll_at (num 40))))
    (scroll_at (num 30))
  = (fst (Index.scrollFix iphone letters (initial_state letters)
            (initial_state letters) (scroll_at (num 40))), []).
Proof.
  exact (@snap_is_idempotent Older string iphone letters
           (initial_state letters) (num 40) eq_refl eq_refl).
Defined.

(** X2.  No second snap, on any platform, wherever the arithmetic finds
    its row again.  Let a momentum end at an offset [y] for which
    [index * h], with [index = Math.round(y / h)], is a number and
    [Math.round(index * h / h)] is [index] again, and let the momentum end
    that follows, delivered after the next render, report that offset.
    Then the second one issues no effect and changes nothing but
    [momentumStarted]: on iOS because [isScrollTo] guards it, elsewhere
    because [scrollFix] finds index and offset settled. *)
Theorem second_momentum_end_is_silent :
  forall (rev : Revision) (T : Type) (env : Env) (p : Props T) (w : World T)
         (y0 : number),
    let index := Math_round (js_div y0 (itemHeight p)) in
    let target := js_mul index (itemHeight p) in
    strict_eq target target = true ->
    Math_round (js_div target (itemHeight p)) = index ->
    let w1 := fst (step_of rev env p w (MomentumScrollEnd (scroll_at y0))) in
    step_of rev env p w1 (MomentumScrollEnd (scroll_at target))
    = (with_state w1 (setMomentumStarted false (state w1)), []).
Proof.
  intros rev T env p w y0 index target Hnum Hback w1.
  assert (Hidx : strict_eq index index = true)
    by (apply strict_eq_refl; exact (@js_mul_number _ _ Hnum)).
  assert (Hsilent : forall s : State,
             (isScrollTo s = false -> dragStarted s = false ->
              strict_eq (selectedIndex s) index = true) ->
             onMomentumScrollEnd_of rev env p s (scroll_at target)
             = (setMomentumStarted false s, [])).
  { intros s Hsel.
    destruct (onMomentumScrollEnd_guard rev env p s (scroll_at target))
      as [Hrun Hskip].
    destruct (isScrollTo s) eqn:Ei; [apply Hskip; left; reflexivity|].
    destruct (dragStarted s) eqn:Ed; [apply Hskip; right; reflexivity|].
    rewrite (Hrun eq_refl eq_refl).
    apply scrollFix_settled; rewrite Hback.
    - exact Hnum.
    - apply Hsel; reflexivity. }
  rewrite step_momentum_end, Hsilent; [reflexivity|].
  intros Hi Hd.
  assert (Hs1 : state w1
                = fst (onMomentumScrollEnd_of rev env p (state w)
                         (scroll_at y0)))
    by (unfold w1; rewrite step_momentum_end; reflexivity).
  rewrite Hs1 in *. clear Hs1.
  destruct (onMomentumScrollEnd_guard rev env p (state w) (scroll_at y0))
    as [Hrun Hskip].
  destruct (isScrollTo (state w)) eqn:Ei.
  { rewrite (Hskip (or_introl eq_refl)) in Hi. simpl in Hi.
    congruence. }
  destruct (dragStarted (state w)) eqn:Ed.
  { rewrite (Hskip (or_intror eq_refl)) in Hd. simpl in Hd.
    congruence. }
  rewrite (Hrun eq_refl eq_refl).
  apply scrollFix_leaves_index; [reflexivity | exact Hidx].
Qed.

(** On Android nothing guards the second momentum end, and still it is
    silent. *)
Lemma second_momentum_end_is_silent_witness :
  snd (Part000.step pixel letters
         (fst (Part000.step pixel letters (mount letters)
                 (MomentumScrollEnd (scroll_at (num 40)))))
         (MomentumScrollEnd (scroll_at (num 30))))
  = [].
Proof.
  exact (f_equal snd
           (@second_momentum_end_is_silent Newer string pixel letters
              (mount letters) (num 40) eq_refl eq_refl)).
Defined.

(** Within the scrollable range the resolved index is the index of a
    row. *)
Lemma round_in_range (qy qh : Q) (n : nat) :
  0 < qh -> 0 <= qy -> qy <= (inject_Z (Z.of_nat n) - 1) * qh ->
  exists k : nat,
    (k < n)%nat
    /\ Math_round (js_div (Fin qy) (Fin qh)) = num (Z.of_nat k).
Proof.
  intros Hh Hlo Hhi.
  unfold js_div, Math_round. rewrite (Qeq_bool_pos Hh).
  set (x := Qred (qy / qh)).
  assert (Hx0 : 0 <= x).
  { unfold x. rewrite Qred_correct. apply Qle_shift_div_l; [exact Hh|].
    rewrite Qmult_0_l. exact Hlo. }
  assert (Hx1 : x <= inject_Z (Z.of_nat n) - 1).
  { unfold x. rewrite Qred_correct. apply Qle_shift_div_r; assumption. }
  assert (Hk0 : (0 <= Qfloor (x + (1 # 2)))%Z).
  { rewrite <- (Qfloor_Z 0). apply Qfloor_resp_le.
    change (inject_Z 0) with 0. clearbody x. clear - Hx0. lra. }
  assert (Hk1 : (Qfloor (x + (1 # 2)) <= Z.of_nat n - 1)%Z).
  { rewrite <- (Qfloor_half (Z.of_nat n - 1)). apply Qfloor_resp_le.
    unfold Z.sub. rewrite inject_Z_plus, inject_Z_opp.
    change (inject_Z 1) with 1.
    clearbody x. clear - Hx1.
    set (q := inject_Z (Z.of_nat n)) in *. lra. }
  exists (Z.to_nat (Qfloor (x + (1 # 2)))). split; [lia|].
  rewrite Z2Nat.id by exact Hk0. reflexivity.
Qed.

(** X3.  Within the scrollable range every report carries a row.  For rows
    of finite height [h > 0] and an offset [y] with
    [0 <= y <= (data.length - 1) * h], every [onValueChange] call that
    [scrollFix] makes, on the end-of-scroll path or on the [onScroll]
    path, passes the index [k] of a row and that row's item, never
    [undefined]. *)
Theorem in_range_offset_reports_a_row :
  forall (T : Type) (env : Env) (p : Props T) (rendered live : State)
         (qy qh : Q),
    itemHeight p = Fin qh ->
    0 < qh ->
    0 <= qy ->
    qy <= (inject_Z (Z.of_nat (List.length (data p))) - 1) * qh ->
    forall (r : State * list (Effect T)) (v : option T) (i : number),
      r = Index.scrollFix env p rendered live (scroll_at (Fin qy))
      \/ r = Part000.scrollFix env p rendered live (scroll_at (Fin qy)) true
      \/ r = Part000.scrollFix env p rendered live (scroll_at (Fin qy)) false ->
      In (CallOnValueChange v i) (snd r) ->
      exists (k : nat) (item : T),
        i = num (Z.of_nat k)
        /\ nth_error (data p) k = Some item
        /\ v = Some item.
Proof.
  intros T env p rendered live qy qh Hh Hpos Hlo Hhi r v i Hr Hin.
  destruct (round_in_range (List.length (data p)) Hpos Hlo Hhi)
    as [k [Hk Hidx]].
  rewrite <- Hh in Hidx.
  assert (Hv : value_changes (snd r)
               = if strict_eq (selectedIndex rendered) (num (Z.of_nat k))
                 then []
                 else if P.onValueChange p
                      then [(nth_error (data p) k, num (Z.of_nat k))]
                      else []).
  { rewrite <- array_get_nat, <- Hidx.
    destruct Hr as [Hr|[Hr|Hr]]; subst r.
    - apply (older_value_changes env p rendered live (scroll_at (Fin qy))
               eq_refl eq_refl).
    - rewrite (scrollFix_true_is_older env p rendered live
                 (scroll_at (Fin qy)) eq_refl eq_refl).
      apply (older_value_changes env p rendered live (scroll_at (Fin qy))
               eq_refl eq_refl).
    - rewrite (newer_false env p rendered live (scroll_at (Fin qy))
                 eq_refl eq_refl).
      unfold p_onValueChange. branches. }
  apply value_changes_in in Hin. rewrite Hv in Hin.
  destruct (strict_eq (selectedIndex rendered) (num (Z.of_nat k)));
    [destruct Hin|].
  destruct (P.onValueChange p); [|destruct Hin].
  destruct Hin as [Heq|[]]. inversion Heq; subst.
  destruct (nth_error (data p) k) as [item|] eqn:E.
  - exists k, item. repeat split; auto.
  - apply nth_error_None in E. lia.
Qed.

(** Four rows of height 30 scroll between 0 and 90; let go at 80, the
    picker reports row 3 and its item ["d"]. *)
Lemma in_range_offset_reports_a_row_witness :
  exists (k : nat) (item : string),
    num 3 = num (Z.of_nat k)
    /\ nth_error (data letters) k = Some item
    /\ Some "d"%string = Some item.
Proof.
  refine (@in_range_offset_reports_a_row string iphone letters
            (initial_state letters) (initial_state letters) 80 30
            eq_refl eq_refl _ _ _ (Some "d"%string) (num 3)
            (or_introl eq_refl) _).
  - discriminate.
  - discriminate.
  - right. left. reflexivity.
Defined.

(* ================================================================== *)
(** ** Further facts: what a run keeps *)
(* ================================================================== *)

Lemma run_app (rev : Revision) (T : Type) (env : Env)
  (a b : list (Props T * Event)) :
  forall w : World T,
    fst (run_of rev env w (a ++ b))
    = fst (run_of rev env (fst (run_of rev env w a)) b).
Proof.
  induction a as [|[p ev] a IH]; intros w.
  - rewrite run_nil. reflexivity.
  - simpl app. rewrite !run_cons. apply IH.
Qed.

(** A property that every step keeps holds wherever a run arrives. *)
Lemma run_invariant (rev : Revision) (T : Type) (env : Env)
  (I : World T -> Prop) :
  (forall (p : Props T) (w : World T) (ev : Event),
      I w -> I (fst (step_of rev env p w ev))) ->
  forall (evs : list (Props T * Event)) (w : World T),
    I w -> I (fst (run_of rev env w evs)).
Proof.
  intros Hstep evs. induction evs as [|[p ev] rest IH]; intros w Hw.
  - rewrite run_nil. exact Hw.
  - rewrite run_cons. apply IH. apply Hstep. exact Hw.
Qed.

(** Off iOS [scrollFix] leaves [isScrollTo] alone. *)
Lemma scrollFix_off_ios (T : Type) (env : Env) (p : Props T)
  (rendered live : State) (e : ScrollEvent) :
  is_ios env = false ->
  isScrollTo (fst (Index.scrollFix env p rendered live e)) = isScrollTo live
  /\ forall b : bool,
      isScrollTo (fst (Part000.scrollFix env p rendered live e b))
      = isScrollTo live.
Proof.
  intros Hos. split; [|intros b; destruct b];
    unfold Index.scrollFix, Part000.scrollFix; rewrite ?Hos; branches.
Qed.

Lemma step_off_ios (rev : Revision) (T : Type) (env : Env) (p : Props T)
  (w : World T) (ev : Event) :
  is_ios env = false ->
  isScrollTo (state w) = false ->
  isScrollTo (state (fst (step_of rev env p w ev))) = false.
Proof.
  intros Hos Hw.
  destruct ev as [ | | e | | e | e | i | id].
  - destruct rev; simpl;
      unfold Index.initialize, Part000.initialize;
      destruct (initialized w); exact Hw.
  - destruct rev; simpl;
      unfold Index.onScrollBeginDrag, Part000.onScrollBeginDrag;
      rewrite Hos; exact Hw.
  - destruct rev; exact Hw.
  - destruct rev; exact Hw.
  - destruct rev; simpl;
      unfold Index.onMomentumScrollEnd, Part000.onMomentumScrollEnd;
      destruct (negb (isScrollTo (state w)) && negb (dragStarted (state w)));
      try exact Hw.
    + rewrite (proj1 (scrollFix_off_ios env p (state w)
                        (setMomentumStarted false (state w)) e Hos)).
      exact Hw.
    + rewrite (proj2 (scrollFix_off_ios env p (state w)
                        (setMomentumStarted false (state w)) e Hos) true).
      exact Hw.
  - destruct rev; simpl; [exact Hw|].
    destruct (changeValueWhileDragging p); [|exact Hw].
    simpl. unfold Part000.onScroll.
    rewrite (proj2 (scrollFix_off_ios env p (state w) (state w) e Hos) false).
    exact Hw.
  - destruct rev; simpl; [exact Hw|].
    destruct (nth_error _ i) as [r|]; [|exact Hw].
    destruct (onPress r) as [[index animated]|]; exact Hw.
  - destruct rev; simpl;
      destruct (find_timer id (pending (host w))) as [cb|]; try exact Hw;
      simpl; unfold Index.timeout_callback, Part000.timeout_callback;
      destruct (negb (momentumStarted (captured_render cb))); try exact Hw.
    + rewrite (proj1 (scrollFix_off_ios env (captured_props cb)
                        (captured_render cb) (state w) (captured_event cb)
                        Hos)).
      exact Hw.
    + rewrite (proj2 (scrollFix_off_ios env (captured_props cb)
                        (captured_render cb) (state w) (captured_event cb)
                        Hos) true).
      exact Hw.
Qed.

(** X4.  Off iOS the programmatic-scroll flag is never set: both writes of
    [isScrollTo] stand behind [Platform.OS === 'ios'], so in every world a
    mounted component reaches on another platform [isScrollTo] is false,
    and a momentum end outside a drag always runs [scrollFix]. *)
Theorem isScrollTo_stays_false_off_ios :
  forall (rev : Revision) (T : Type) (env : Env) (w : World T),
    is_ios env = false ->
    reachable rev env w ->
    isScrollTo (state w) = false
    /\ forall (p : Props T) (e : ScrollEvent),
        dragStarted (state w) = false ->
        onMomentumScrollEnd_of rev env p (state w) e
        = scrollFix_of rev env p (state w)
            (setMomentumStarted false (state w)) e.
Proof.
  intros rev T env w Hos [p0 [evs ->]].
  assert (H : isScrollTo (state (fst (run_of rev env (mount p0) evs)))
              = false).
  { apply (run_invariant rev env
             (fun w => isScrollTo (state w) = false)).
    - intros p w ev. apply step_off_ios. exact Hos.
    - reflexivity. }
  split; [exact H|].
  intros p e Hd.
  apply (proj1 (onMomentumScrollEnd_guard rev env p _ e)); assumption.
Qed.

(** On an Android phone, after a snap, the flag is still false. *)
Lemma isScrollTo_stays_false_off_ios_witness :
  isScrollTo
    (state (fst (Index.run pixel (mount letters)
                   [(letters, MomentumScrollEnd (scroll_at (num 40)))])))
  = false.
Proof.
  exact (proj1
    (@isScrollTo_stays_false_off_ios Older string pixel
       (fst (Index.run pixel (mount letters)
               [(letters, MomentumScrollEnd (scroll_at (num 40)))]))
       eq_refl
       (ex_intro _ letters
          (ex_intro _ [(letters, MomentumScrollEnd (scroll_at (num 40)))]
             eq_refl)))).
Defined.

Lemma newer_false_no_scroll (T : Type) (env : Env) (p : Props T)
  (rendered live : State) (e : ScrollEvent) :
  scroll_commands (snd (Part000.scrollFix env p rendered live e false)) = [].
Proof.
  unfold Part000.scrollFix, p_onValueChange. branches.
Qed.

(** Delivered to the handlers of a render of the live state, an event does
    what [step] does. *)
Lemma dispatch_of_fresh_render (rev : Revision) (T : Type) (env : Env)
  (p : Props T) (w : World T) (ev : Event) :
  Closure.dispatch rev env p (state w) w ev = step_of rev env p w ev.
Proof.
  destruct rev, ev; try reflexivity.
  simpl.
  rewrite (@nth_error_map_from _ (Index.renderItem p (state w))).
  destruct (nth_error (data p) index); reflexivity.
Qed.

(** X5.  While its render sees a drag, no callback of the ScrollView
    snaps.  For a render in which [dragStarted] is set, and whatever the
    live component has become since, none of the five scroll callbacks of
    that render issues a [scrollTo].  In the older revision, and in the
    newer one when [changeValueWhileDragging] is false, they call no
    [onValueChange] either and leave [selectedIndex] as it is.  A timeout
    is no callback of the render: one left pending from a release may
    still snap. *)
Theorem nothing_snaps_during_a_drag :
  forall (rev : Revision) (T : Type) (env : Env) (p : Props T)
         (rendered : State) (w : World T) (ev : Event),
    dragStarted rendered = true ->
    view_callback ev = true ->
    let r := Closure.dispatch rev env p rendered w ev in
    scroll_commands (snd r) = []
    /\ (rev = Older \/ changeValueWhileDragging p = false ->
        value_changes (snd r) = []
        /\ selectedIndex (state (fst r)) = selectedIndex (state w)).
Proof.
  intros rev T env p rendered w ev Hdrag Hcb r. subst r.
  destruct ev as [ | | e | | e | e | i | id]; try discriminate.
  - simpl. destruct (timer rendered); destruct (is_ios env); repeat split.
  - simpl. destruct (timer rendered); repeat split.
  - simpl. destruct (timer rendered); repeat split.
  - unfold Closure.dispatch, Closure.onMomentumScrollEnd.
    rewrite Hdrag, andb_false_r. repeat split.
  - destruct rev; simpl; [repeat split|].
    destruct (changeValueWhileDragging p) eqn:Ec; [|repeat split].
    split; [apply newer_false_no_scroll|].
    intros [H|H]; discriminate.
Qed.

(** The finger goes down on the letters picker and a momentum end strays
    in: nothing is scrolled. *)
Lemma nothing_snaps_during_a_drag_witness :
  scroll_commands
    (snd (Closure.dispatch Older iphone letters
            (setDragStarted true (initial_state letters))
            (mount letters)
            (MomentumScrollEnd (scroll_at (num 40)))))
  = [].
Proof.
  exact (proj1
    (@nothing_snaps_during_a_drag Older string iphone letters
       (setDragStarted true (initial_state letters)) (mount letters)
       (MomentumScrollEnd (scroll_at (num 40))) eq_refl eq_refl)).
Defined.

(** Closes a goal about membership in a short, explicit effect list. *)
Ltac pick_call :=
  let H := fresh "H" in
  intros H; simpl in H;
  repeat (destruct H as [H|H]; try discriminate);
  try contradiction;
  inversion H; subst; split; reflexivity.

(** A call of [onValueChange] made by [scrollFix] carries the index that
    [scrollFix] stores, and is the only one. *)
Lemma scrollFix_call_in_sync (T : Type) (env : Env) (p : Props T)
  (rendered live : State) (e : ScrollEvent) (v : option T) (i : number) :
  (In (CallOnValueChange v i) (snd (Index.scrollFix env p rendered live e)) ->
   selectedIndex (fst (Index.scrollFix env p rendered live e)) = i
   /\ value_changes (snd (Index.scrollFix env p rendered live e)) = [(v, i)])
  /\ forall b : bool,
      In (CallOnValueChange v i)
         (snd (Part000.scrollFix env p rendered live e b)) ->
      selectedIndex (fst (Part000.scrollFix env p rendered live e b)) = i
      /\ value_changes (snd (Part000.scrollFix env p rendered live e b))
         = [(v, i)].
Proof.
  split; [|intros b; destruct b];
    unfold Index.scrollFix, Part000.scrollFix, sView_scrollTo,
      p_onValueChange;
    branches; pick_call.
Qed.

(** Without a call, [scrollFix] of a component whose owner listens leaves
    the live index alone. *)
Lemma scrollFix_quiet_keeps_index (T : Type) (env : Env) (p : Props T)
  (rendered live : State) (e : ScrollEvent) :
  P.onValueChange p = true ->
  (value_changes (snd (Index.scrollFix env p rendered live e)) = [] ->
   selectedIndex (fst (Index.scrollFix env p rendered live e))
   = selectedIndex live)
  /\ forall b : bool,
      value_changes (snd (Part000.scrollFix env p rendered live e b)) = [] ->
      selectedIndex (fst (Part000.scrollFix env p rendered live e b))
      = selectedIndex live.
Proof.
  intros Hcb. split; [|intros b; destruct b];
    unfold Index.scrollFix, Part000.scrollFix, sView_scrollTo,
      p_onValueChange;
    rewrite Hcb; branches; discriminate.
Qed.

(** X6.  Owner and component stay in step.  In either revision, whenever a
    step calls [onValueChange], it calls it once, and the index it passes
    is the [selectedIndex] the component has after the step.  Conversely,
    when the owner has supplied the callback, a step other than a timeout
    that makes no call leaves [selectedIndex] as it was. *)
Theorem reports_match_selectedIndex :
  forall (rev : Revision) (T : Type) (env : Env) (p : Props T) (w : World T)
         (ev : Event),
    (forall (v : option T) (i : number),
        In (CallOnValueChange v i) (snd (step_of rev env p w ev)) ->
        selectedIndex (state (fst (step_of rev env p w ev))) = i
        /\ value_changes (snd (step_of rev env p w ev)) = [(v, i)])
    /\ (P.onValueChange p = true ->
        (forall id : TimerId, ev <> Timeout id) ->
        value_changes (snd (step_of rev env p w ev)) = [] ->
        selectedIndex (state (fst (step_of rev env p w ev)))
        = selectedIndex (state w)).
Proof.
  intros rev T env p w ev. split.
  - intros v i.
    destruct ev as [ | | e | | e | e | k | id].
    + destruct rev; simpl;
        unfold Index.initialize, Part000.initialize, Part000.scrollToIndex,
          sView_scrollTo, p_onValueChange;
        branches; pick_call.
    + destruct rev; simpl; destruct (timer (state w)); pick_call.
    + destruct rev; simpl; destruct (timer (state w)); pick_call.
    + destruct rev; simpl; destruct (timer (state w)); pick_call.
    + destruct rev; simpl;
        unfold Index.onMomentumScrollEnd, Part000.onMomentumScrollEnd;
        destruct (negb (isScrollTo (state w))
                  && negb (dragStarted (state w)));
        try pick_call.
      * apply (proj1 (scrollFix_call_in_sync env p (state w)
                        (setMomentumStarted false (state w)) e v i)).
      * apply (proj2 (scrollFix_call_in_sync env p (state w)
                        (setMomentumStarted false (state w)) e v i) true).
    + destruct rev; simpl; [pick_call|].
      destruct (changeValueWhileDragging p); [|pick_call].
      apply (proj2 (scrollFix_call_in_sync env p (state w) (state w) e v i)
               false).
    + destruct rev; simpl; [pick_call|].
      unfold Part000.scrollToIndex, sView_scrollTo.
      destruct (nth_error _ k) as [r|]; [|pick_call].
      destruct (onPress r) as [[index animated]|]; [|pick_call].
      simpl. destruct (sView_current env); pick_call.
    + destruct rev; simpl;
        destruct (find_timer id (pending (host w))) as [cb|];
        try pick_call; simpl;
        unfold Index.timeout_callback, Part000.timeout_callback;
        destruct (negb (momentumStarted (captured_render cb)));
        try pick_call.
      * apply (proj1 (scrollFix_call_in_sync env (captured_props cb)
                        (captured_render cb) (state w) (captured_event cb)
                        v i)).
      * apply (proj2 (scrollFix_call_in_sync env (captured_props cb)
                        (captured_render cb) (state w) (captured_event cb)
                        v i) true).
  - intros Hcb Hnt.
    destruct ev as [ | | e | | e | e | k | id].
    + destruct rev; simpl;
        unfold Index.initialize, Part000.initialize;
        destruct (initialized w); reflexivity.
    + destruct rev; simpl; destruct (is_ios env); reflexivity.
    + destruct rev; reflexivity.
    + destruct rev; reflexivity.
    + destruct rev; simpl;
        unfold Index.onMomentumScrollEnd, Part000.onMomentumScrollEnd;
        destruct (negb (isScrollTo (state w))
                  && negb (dragStarted (state w)));
        try reflexivity.
      * apply (proj1 (scrollFix_quiet_keeps_index env p (state w)
                        (setMomentumStarted false (state w)) e Hcb)).
      * apply (proj2 (scrollFix_quiet_keeps_index env p (state w)
                        (setMomentumStarted false (state w)) e Hcb) true).
    + destruct rev; simpl; [reflexivity|].
      destruct (changeValueWhileDragging p); [|reflexivity].
      apply (proj2 (scrollFix_quiet_keeps_index env p (state w) (state w) e
                      Hcb) false).
    + destruct rev; simpl; [reflexivity|].
      destruct (nth_error _ k) as [r|]; [|reflexivity].
      destruct (onPress r) as [[index animated]|]; reflexivity.
    + exfalso. apply (Hnt id). reflexivity.
Qed.

(** The momentum of the letters picker ends at offset 70: row 2 is
    reported and row 2 is selected. *)
Lemma reports_match_selectedIndex_witness :
  selectedIndex
    (state (fst (Part000.step iphone letters (mount letters)
                   (MomentumScrollEnd (scroll_at (num 70))))))
  = num 2.
Proof.
  refine (proj1 (proj1
    (@reports_match_selectedIndex Newer string iphone letters
       (mount letters) (MomentumScrollEnd (scroll_at (num 70))))
    (Some "c"%string) (num 2) _)).
  right. left. reflexivity.
Defined.

(* ================================================================== *)
(** ** Further facts: the effect run at mount *)
(* ================================================================== *)

Lemma step_keeps_initialized (rev : Revision) (T : Type) (env : Env)
  (p : Props T) (w : World T) (ev : Event) :
  initialized w = true ->
  initialized (fst (step_of rev env p w ev)) = true.
Proof.
  intros Hw.
  destruct ev as [ | | e | | e | e | i | id]; destruct rev; simpl;
    try exact Hw.
  - unfold Index.initialize. rewrite Hw. exact Hw.
  - unfold Part000.initialize. rewrite Hw. exact Hw.
  - destruct (changeValueWhileDragging p); exact Hw.
  - destruct (nth_error _ i) as [r|]; [|exact Hw].
    destruct (onPress r) as [[index animated]|]; exact Hw.
  - destruct (find_timer id (pending (host w))); exact Hw.
  - destruct (find_timer id (pending (host w))); exact Hw.
Qed.

Lemma step_run_effect_initializes (rev : Revision) (T : Type) (env : Env)
  (p : Props T) (w : World T) :
  initialized (fst (step_of rev env p w RunEffect)) = true.
Proof.
  destruct rev; simpl; unfold Index.initialize, Part000.initialize;
    destruct (initialized w) eqn:E; simpl; auto.
Qed.

(** X7.  The effect [initialize] takes effect once.  After its first run,
    whatever events follow, a later run of the effect changes nothing and
    issues nothing; and a [scrollTo] with [animated: false] comes from
    nowhere but a run of the effect on a component not yet initialized. *)
Theorem initialize_runs_once :
  forall (rev : Revision) (T : Type) (env : Env) (w0 : World T)
         (before after : list (Props T * Event)) (p p' : Props T),
    let w := fst (run_of rev env w0 (before ++ (p, RunEffect) :: after)) in
    step_of rev env p' w RunEffect = (w, [])
    /\ forall (w1 : World T) (ev : Event) (y : number),
        In (ScrollTo y (Some false)) (snd (step_of rev env p' w1 ev)) ->
        ev = RunEffect /\ initialized w1 = false.
Proof.
  intros rev T env w0 before after p p' w. split.
  - assert (Hinit : initialized w = true).
    { unfold w. rewrite run_app, run_cons.
      apply (run_invariant rev env (fun w => initialized w = true)).
      - intros q w1 ev. apply step_keeps_initialized.
      - apply step_run_effect_initializes. }
    destruct rev; simpl; unfold Index.initialize, Part000.initialize;
      rewrite Hinit; reflexivity.
  - intros w1 ev y.
    destruct ev as [ | | e | | e | e | i | id].
    + intros Hin. split; [reflexivity|].
      destruct (initialized w1) eqn:E; [|reflexivity].
      destruct rev; simpl in Hin;
        unfold Index.initialize, Part000.initialize in Hin;
        rewrite E in Hin; destruct Hin.
    + destruct rev; simpl; destruct (timer (state w1)); pick_call.
    + destruct rev; simpl; destruct (timer (state w1)); pick_call.
    + destruct rev; simpl; destruct (timer (state w1)); pick_call.
    + destruct rev; simpl;
        unfold Index.onMomentumScrollEnd, Part000.onMomentumScrollEnd,
          Index.scrollFix, Part000.scrollFix, sView_scrollTo,
          p_onValueChange;
        branches; pick_call.
    + destruct rev; simpl; [pick_call|].
      unfold Part000.onScroll, Part000.scrollFix, p_onValueChange.
      branches; pick_call.
    + destruct rev; simpl; [pick_call|].
      unfold Part000.scrollToIndex, sView_scrollTo.
      destruct (nth_error _ i) as [r|] eqn:En; [|pick_call].
      rewrite (@nth_error_map_from _ (Part000.renderItem p' (state w1)))
        in En.
      destruct (nth_error (data p') i); [|discriminate].
      simpl in En. inversion En; subst r. simpl.
      destruct (sView_current env); pick_call.
    + destruct rev; simpl;
        unfold Index.timeout_callback, Part000.timeout_callback,
          Index.scrollFix, Part000.scrollFix, sView_scrollTo,
          p_onValueChange;
        branches; pick_call.
Qed.

(** Twice mounted-and-initialized is once: the second run of the effect on
    the letters picker asked for row 7 is silent. *)
Lemma initialize_runs_once_witness :
  Index.step iphone (letters_at (num 7))
    (fst (Index.run iphone (mount (letters_at (num 7)))
            [(letters_at (num 7), RunEffect)]))
    RunEffect
  = (fst (Index.run iphone (mount (letters_at (num 7)))
            [(letters_at (num 7), RunEffect)]), []).
Proof.
  exact (proj1
    (@initialize_runs_once Older string iphone (mount (letters_at (num 7)))
       [] [] (letters_at (num 7)) (letters_at (num 7)))).
Defined.

(** What the clamp returns is its argument, 0, or the last index. *)
Lemma constrainIndex_choice (g : number) (n : nat) :
  g <> NaN ->
  let r := constrainIndex (Some g) (num (Z.of_nat n)) in
  r = g \/ r = num 0 \/ r = js_sub (num (Z.of_nat n)) (num 1).
Proof.
  intros Hg r. subst r. unfold constrainIndex, nullish_or, js_sub, num.
  set (m := Qred (inject_Z (Z.of_nat n) - inject_Z 1)).
  unfold Math_max, Math_min, js_lt.
  destruct g as [x| | |]; try congruence;
    repeat (match goal with
            | |- context [Qle_bool ?a ?b] => destruct (Qle_bool a b)
            end; cbn [negb]; cbv iota beta);
    cbn [negb]; auto.
Qed.

Lemma last_index (n : nat) :
  n <> 0%nat ->
  Qred (inject_Z (Z.of_nat n) - inject_Z 1) == inject_Z (Z.of_nat (n - 1)).
Proof.
  intros Hn. rewrite Qred_correct, Nat2Z.inj_sub by lia.
  unfold Z.sub. rewrite inject_Z_plus, inject_Z_opp. reflexivity.
Qed.

(** X8.  What the mount reports.  The effect run at mount calls
    [onValueChange] only when a [selectedIndex] prop was given and is not
    [===] the clamped index, and it passes the clamped index.  When [data]
    is not empty and the prop is not NaN, that index is the first or the
    last row and the value passed is that row's item; when [data] is
    empty the value passed is [undefined]. *)
Theorem mount_reports_a_clamped_row :
  forall (rev : Revision) (T : Type) (env : Env) (p : Props T)
         (v : option T) (i : number),
    In (CallOnValueChange v i) (snd (step_of rev env p (mount p) RunEffect)) ->
    (exists given : number,
        P.selectedIndex p = Some given /\ strict_eq given i = false)
    /\ i = selectedIndex (state (mount p))
    /\ (P.selectedIndex p <> Some NaN -> data p <> [] ->
        exists (k : nat) (item : T),
          (k = 0%nat \/ k = (List.length (data p) - 1)%nat)
          /\ strict_eq i (num (Z.of_nat k)) = true
          /\ nth_error (data p) k = Some item
          /\ v = Some item)
    /\ (data p = [] -> v = None).
Proof.
  intros rev T env p v i Hin.
  assert (H : exists given : number,
             P.selectedIndex p = Some given
             /\ strict_eq given (selectedIndex (state (mount p))) = false
             /\ i = selectedIndex (state (mount p))
             /\ v = array_get (data p) (selectedIndex (state (mount p)))).
  { destruct rev; simpl in Hin;
      unfold Index.initialize, Part000.initialize, Part000.scrollToIndex,
        sView_scrollTo, p_onValueChange in Hin;
      simpl in Hin;
      change (selectedIndex (state (mount p)))
        with (constrainIndex (P.selectedIndex p) (array_length (data p)));
      destruct (P.selectedIndex p) as [g|]; simpl in Hin.
    1, 3: destruct (strict_eq g (constrainIndex (Some g)
                                   (array_length (data p)))) eqn:E;
      simpl in Hin.
    all: destruct (P.onValueChange p); destruct (sView_current env);
      simpl in Hin;
      repeat (destruct Hin as [Hin|Hin]; try discriminate);
      try contradiction.
    all: inversion Hin; subst; exists g; repeat split; exact E. }
  destruct H as [g [Hg [Hne [Hi Hv]]]].
  split; [exists g; split; [exact Hg | rewrite Hi; exact Hne]|].
  split; [exact Hi|]. split.
  - intros Hnan Hdata.
    assert (Hg' : g <> NaN) by (intros ->; apply Hnan; exact Hg).
    assert (Hn : List.length (data p) <> 0%nat)
      by (destruct (data p); [congruence|discriminate]).
    assert (Hs : selectedIndex (state (mount p))
                 = constrainIndex (Some g)
                     (num (Z.of_nat (List.length (data p)))))
      by (simpl; rewrite Hg; reflexivity).
    destruct (@constrainIndex_choice g (List.length (data p)) Hg')
      as [Hc|[Hc|Hc]].
    + rewrite Hs, Hc, (strict_eq_refl Hg') in Hne. discriminate.
    + destruct (nth_error (data p) 0) as [item|] eqn:E.
      * exists 0%nat, item. rewrite Hi, Hv, Hs, Hc.
        repeat split; auto;
          try (rewrite <- E; apply (array_get_nat (data p) 0)).
      * apply nth_error_None in E. lia.
    + destruct (nth_error (data p) (List.length (data p) - 1))
        as [item|] eqn:E.
      * exists (List.length (data p) - 1)%nat, item.
        rewrite Hi, Hv, Hs, Hc. repeat split; auto.
        -- apply Qeq_bool_iff. apply last_index. exact Hn.
        -- rewrite <- E. apply array_get_int. apply last_index. exact Hn.
      * apply nth_error_None in E. lia.
  - intros Hnil. rewrite Hv, Hnil. apply array_get_empty.
Qed.

(** Four letters asked to start at row 7: the owner is told row 3 and
    ["d"]. *)
Lemma mount_reports_a_clamped_row_witness :
  exists (k : nat) (item : string),
    (k = 0%nat \/ k = (List.length (data (letters_at (num 7))) - 1)%nat)
    /\ strict_eq (num 3) (num (Z.of_nat k)) = true
    /\ nth_error (data (letters_at (num 7))) k = Some item
    /\ Some "d"%string = Some item.
Proof.
  refine (proj1 (proj2 (proj2
    (@mount_reports_a_clamped_row Newer string iphone (letters_at (num 7))
       (Some "d"%string) (num 3) (or_introl eq_refl)))) _ _);
    discriminate.
Defined.

(* ================================================================== *)
(** ** Further facts: the style prop *)
(* ================================================================== *)




(** White space is stripped from both ends of what [Number] reads, the
    no-break space included; a byte that only begins like white space is
    kept. *)
Example Number_trims_unicode_whitespace :
  StringToNumber
    (String "194" (String "160" (String "0" (String "x"
       (String "1" (String "0" (String "239" (String "187"
          (String "191" EmptyString))))))))) = num 16
  /\ StringToNumber (String "226" (String "128" (String "139" "1"))) = NaN
  /\ parseFloat (String "227" (String "128" (String "128" "2.5e1px")))
     = num 25.
Proof. vm_compute. repeat split. Qed.

Lemma index_key_is_not_height (n : nat) :
  String.eqb "height" (index_key n) = false.
Proof.
  unfold index_key. destruct (Nat.to_uint n); reflexivity.
Qed.

Lemma array_keys_lack_height (ks : list nat) :
  includes (map index_key ks) "height" = false.
Proof.
  unfold includes. induction ks as [|k ks IH]; [reflexivity|].
  cbn [map existsb]. rewrite index_key_is_not_height. exact IH.
Qed.

(** X10.  Only a plain object with a [height] key is a view style.  An
    array of styles is none whatever it holds, nor is a registered style,
    null, undefined or false, nor an object without [height].  For such a
    style prop the wrapper is [containerHeight] when that is truthy and
    [itemHeight * 5] otherwise, and the highlight is as wide as the window,
    even when the style carries a [width]. *)
Theorem only_objects_with_height_size_the_picker :
  forall (T : Type) (env : Env) (p : Props T),
    (forall items : list StyleObject, isViewStyle (StyleArray items) = false)
    /\ (forall fields : StyleObject,
           isViewStyle (StylePlain fields)
           = includes (map fst fields) "height")
    /\ (isViewStyle (P.style p) = false ->
        wrapperHeight p
        = match P.containerHeight p with
          | Some c => if truthy c then c else js_mul (itemHeight p) (num 5)
          | None => js_mul (itemHeight p) (num 5)
          end
        /\ highlightWidth env p = VNumber (deviceWidth env)).
Proof.
  intros T env p. split; [|split].
  - intros items. unfold isViewStyle. simpl.
    apply array_keys_lack_height.
  - reflexivity.
  - intros Hv. split.
    + unfold wrapperHeight, styleHeight, or_number, js_or.
      rewrite Hv. simpl.
      destruct (P.containerHeight p) as [c|]; [|reflexivity].
      destruct (truthy c) eqn:E; [rewrite E|]; reflexivity.
    + unfold highlightWidth. rewrite Hv. simpl.
      destruct (deviceWidth env); reflexivity.
Qed.

(** A style of width 200 and no height leaves the highlight as wide as the
    window. *)
Lemma only_objects_with_height_size_the_picker_witness :
  highlightWidth iphone (sized None (of_width (VNumber (num 200))))
  = VNumber (num 390).
Proof.
  exact (proj2 (proj2 (proj2
    (@only_objects_with_height_size_the_picker string iphone
       (sized None (of_width (VNumber (num 200)))))) eq_refl)).
Defined.

(* ================================================================== *)
(** ** Further facts: the column *)
(* ================================================================== *)





Lemma keys_map_from (T : Type) (f : T -> number -> Row T) (l : list T) :
  (forall (a : T) (index : number), key (f a index) = VNumber index) ->
  forall i : nat,
    map (@key T) (map_from f i l)
    = map (fun k => VNumber (num (Z.of_nat k))) (seq i (List.length l)).
Proof.
  intros Hf. induction l as [|a l IH]; intros i; simpl; [reflexivity|].
  rewrite Hf, IH. reflexivity.
Qed.

(** X13.  Rows are keyed by their index unless [keyExtractor] says
    otherwise.  Without a [keyExtractor], or with one that returns only
    null or undefined, the keys of the rows are the indices
    [0 .. data.length - 1] in order, and so no two rows share a key. *)
Theorem default_keys_are_the_indices :
  forall (rev : Revision) (T : Type) (env : Env) (p : Props T) (s : State),
    (forall f : T -> number -> JSValue,
        P.keyExtractor p = Some f ->
        forall (item : T) (index : number),
          f item index = VUndefined \/ f item index = VNull) ->
    row_keys (render_of rev env p s)
    = map (fun k => VNumber (num (Z.of_nat k)))
          (seq 0 (List.length (data p)))
    /\ NoDup (row_keys (render_of rev env p s)).
Proof.
  intros rev T env p s Hk.
  assert (Hkey : forall (a : T) (index : number),
             key (renderItem_of rev p s a index) = VNumber index).
  { intros a index.
    assert (H : key (renderItem_of rev p s a index) = row_key p a index)
      by (destruct rev; reflexivity).
    rewrite H. unfold row_key.
    destruct (P.keyExtractor p) as [f|]; [|reflexivity].
    destruct (Hk f eq_refl a index) as [E|E]; rewrite E; reflexivity. }
  assert (Hkeys : row_keys (render_of rev env p s)
                  = map (fun k => VNumber (num (Z.of_nat k)))
                        (seq 0 (List.length (data p)))).
  { unfold row_keys. rewrite rows_of_render.
    apply keys_map_from. exact Hkey. }
  split; [exact Hkeys|].
  rewrite Hkeys. clear.
  generalize 0%nat at 1. induction (List.length (data p)) as [|n IH];
    intros i; simpl; constructor; [|apply IH].
  rewrite in_map_iff. intros [k [Hk Hin]].
  apply in_seq in Hin. inversion Hk. lia.
Qed.

Lemma default_keys_are_the_indices_witness :
  row_keys (Part000.render iphone letters_keyless
              (initial_state letters_keyless))
  = [VNumber (num 0); VNumber (num 1); VNumber (num 2); VNumber (num 3)].
Proof.
  refine (proj1
    (@default_keys_are_the_indices Newer string iphone letters_keyless
       (initial_state letters_keyless) _)).
  intros f Hf item index. left.
  inversion Hf. reflexivity.
Defined.

(* ================================================================== *)
(** ** Further facts: release, timeout, press *)
(* ================================================================== *)

Lemma find_timer_last (T : Type) (id : TimerId) (cb : TimerCallback T)
  (l : list (TimerId * TimerCallback T)) :
  ~ In id (map fst l) -> find_timer id (l ++ [(id, cb)]) = Some cb.
Proof.
  induction l as [|[i c] l IH]; simpl; intros Hnot.
  - rewrite Nat.eqb_refl. reflexivity.
  - destruct (Nat.eqb i id) eqn:E.
    + apply Nat.eqb_eq in E. exfalso. apply Hnot. left. exact E.
    + apply IH. intros Hin. apply Hnot. right. exact Hin.
Qed.

Lemma find_timer_cancel (T : Type) (id t : TimerId)
  (l : list (TimerId * TimerCallback T)) :
  find_timer id (cancel t l)
  = if Nat.eqb t id then None else find_timer id l.
Proof.
  unfold cancel. induction l as [|[i c] l IH]; simpl.
  - destruct (Nat.eqb t id); reflexivity.
  - destruct (Nat.eqb i t) eqn:Eit; simpl.
    + rewrite IH. apply Nat.eqb_eq in Eit. subst i.
      destruct (Nat.eqb t id); reflexivity.
    + rewrite IH. destruct (Nat.eqb i id) eqn:Eid; [|reflexivity].
      apply Nat.eqb_eq in Eid. subst i.
      rewrite Nat.eqb_sym, Eit. reflexivity.
Qed.

Lemma cancel_keeps_fresh (T : Type) (id t : TimerId)
  (l : list (TimerId * TimerCallback T)) :
  ~ In id (map fst l) -> ~ In id (map fst (cancel t l)).
Proof.
  intros Hnot Hin. apply Hnot.
  apply in_map_iff in Hin. destruct Hin as [x [Hx Hin]].
  apply in_map_iff. exists x. split; [exact Hx|].
  unfold cancel in Hin. apply filter_In in Hin. apply Hin.
Qed.

(** X14.  A release is snapped by its timeout unless a handler that knows
    the timeout clears it first.  A release delivered to the handlers of a
    render schedules a timeout that captures that render, its props and
    the event, and stores its handle in [timer].  When that timeout falls
    due, in whatever state the component then is, it does nothing if the
    captured render had [momentumStarted] set, and otherwise runs
    [scrollFix] on the event of the release with the captured props and
    the captured render.  A momentum or a drag that begins first clears the
    timeout exactly when the render of its handler holds that handle in
    [timer]; delivered to a render from before the release was stored, it
    leaves the timeout pending. *)
Theorem release_is_snapped_by_the_timeout :
  forall (rev : Revision) (T : Type) (env : Env) (p : Props T)
         (rendered : State) (w : World T) (e : ScrollEvent),
    ~ In (next_id (host w)) (pending_ids w) ->
    let id := next_id (host w) in
    let cb := {| captured_props := p; captured_render := rendered;
                 captured_event := e |} in
    let w1 := fst (Closure.dispatch rev env p rendered w (ScrollEndDrag e)) in
    find_timer id (pending (host w1)) = Some cb
    /\ timer (state w1) = Some id
    /\ (forall (w2 : World T) (p' : Props T) (rendered' : State),
           find_timer id (pending (host w2)) = Some cb ->
           Closure.dispatch rev env p' rendered' w2 (Timeout id)
           = commit (fired w2 id)
               (if momentumStarted rendered then (state w2, [])
                else scrollFix_of rev env p rendered (state w2) e))
    /\ (forall (w2 : World T) (p' : Props T) (rendered' : State)
               (ev : Event),
           find_timer id (pending (host w2)) = Some cb ->
           ev = MomentumScrollBegin \/ ev = ScrollBeginDrag ->
           find_timer id
             (pending (host (fst (Closure.dispatch rev env p' rendered' w2
                                    ev))))
           = match timer rendered' with
             | Some t => if Nat.eqb t id then None else Some cb
             | None => Some cb
             end).
Proof.
  intros rev T env p rendered w e Hfresh id cb w1.
  split; [|split; [|split]].
  - unfold w1, Closure.dispatch, Closure.onScrollEndDrag, commit.
    cbn [fst snd host]. rewrite host_effects_app.
    fold cb. fold id.
    assert (Hp : ~ In id (map fst (pending (host_effects (host w)
                                      (clear_timer (timer rendered)))))).
    { destruct (timer rendered) as [t|]; simpl; [|exact Hfresh].
      apply cancel_keeps_fresh. exact Hfresh. }
    unfold host_effects at 1. cbn [fold_left host_effect pending].
    apply find_timer_last. exact Hp.
  - reflexivity.
  - intros w2 p' rendered' Hcb.
    unfold Closure.dispatch. rewrite Hcb.
    destruct rev; simpl;
      unfold Index.timeout_callback, Part000.timeout_callback;
      cbn [captured_render captured_props captured_event cb];
      destruct (momentumStarted rendered); reflexivity.
  - intros w2 p' rendered' ev Hcb Hev.
    destruct Hev as [-> | ->]; simpl;
      destruct (timer rendered') as [t|]; simpl;
      try exact Hcb; rewrite find_timer_cancel, Hcb; reflexivity.
Qed.

(** A drag on the letters picker is let go at offset 40 and no momentum
    follows: the timeout scrolls to 30 and reports row 1. *)
Lemma release_is_snapped_by_the_timeout_witness :
  snd (Closure.dispatch Older iphone letters
         (state (fst (Closure.dispatch Older iphone letters
                        (initial_state letters) (mount letters)
                        (ScrollEndDrag (scroll_at (num 40))))))
         (fst (Closure.dispatch Older iphone letters
                 (initial_state letters) (mount letters)
                 (ScrollEndDrag (scroll_at (num 40)))))
         (Timeout 1%nat))
  = [ScrollTo (num 30) None; CallOnValueChange (Some "b"%string) (num 1)].
Proof.
  assert (Hfresh : ~ In (next_id (host (mount letters)))
                        (pending_ids (mount letters)))
    by (intros []).
  pose proof (@release_is_snapped_by_the_timeout Older string iphone letters
                (initial_state letters) (mount letters)
                (scroll_at (num 40)) Hfresh) as [Hp [_ [Hrun _]]].
  exact (f_equal snd (Hrun _ letters _ Hp)).
Defined.

(** X15.  An event without [contentOffset].  The older revision takes the
    offset for 0: over rows of finite, non-zero height it resolves row 0
    and scrolls nowhere.  The newer revision throws on reading [.y], before
    any update and whatever [setScrollTo] is; a [contentOffset] whose [y]
    is missing it takes for offset 0. *)
Theorem event_without_contentOffset :
  forall (T : Type) (env : Env) (p : Props T) (rendered live : State)
         (h : Q),
    itemHeight p = Fin h ->
    ~ h == 0 ->
    Index.scrollFix env p rendered live no_offset
    = (if strict_eq (selectedIndex rendered) (num 0) then (live, [])
       else (setSelectedIndex (num 0) live,
             p_onValueChange p (array_get (data p) (num 0)) (num 0)))
    /\ (forall b : bool,
           Part000.scrollFix env p rendered live no_offset b
           = (live, [ThrowTypeError]))
    /\ (forall b : bool,
           Part000.scrollFix env p rendered live no_y b
           = Part000.scrollFix env p rendered live (scroll_at (num 0)) b).
Proof.
  intros T env p rendered live h Hh Hnz.
  assert (Hz : Qeq_bool h 0 = false).
  { destruct (Qeq_bool h 0) eqn:E; [|reflexivity].
    apply Qeq_bool_iff in E. contradiction. }
  split; [|split; intros b; reflexivity].
  unfold Index.scrollFix, no_offset. simpl E.contentOffset. cbv iota.
  unfold to_number, nullish_or. rewrite Hh.
  assert (Hi : Math_round (js_div (num 0) (Fin h)) = num 0).
  { unfold js_div, num. rewrite Hz.
    assert (E : Qred (inject_Z 0 / h) == inject_Z 0)
      by (rewrite Qred_correct; field; exact Hnz).
    unfold Math_round. rewrite E. reflexivity. }
  rewrite Hi.
  assert (Ht : strict_neq (js_mul (num 0) (Fin h)) (Some (num 0)) = false).
  { unfold strict_neq, js_mul, num, strict_eq.
    assert (E : Qeq_bool (Qred (inject_Z 0 * h)) (inject_Z 0) = true)
      by (apply Qeq_bool_iff; rewrite Qred_correct; ring).
    rewrite E. reflexivity. }
  rewrite Ht.
  destruct (strict_eq (selectedIndex rendered) (num 0)); reflexivity.
Qed.

Lemma event_without_contentOffset_witness :
  Index.scrollFix iphone letters
    (setSelectedIndex (num 2) (initial_state letters))
    (setSelectedIndex (num 2) (initial_state letters)) no_offset
  = (setSelectedIndex (num 0)
       (setSelectedIndex (num 2) (initial_state letters)),
     [CallOnValueChange (Some "a"%string) (num 0)]).
Proof.
  refine (proj1
    (@event_without_contentOffset string iphone letters
       (setSelectedIndex (num 2) (initial_state letters))
       (setSelectedIndex (num 2) (initial_state letters)) 30 eq_refl _)).
  discriminate.
Defined.

(** X16.  Pressing a row selects it, wherever the arithmetic finds the
    row again.  In the newer revision, with the ScrollView ref attached, a
    press on row [k] changes no state and issues one animated [scrollTo]
    to [itemHeight * k]; a press where there is no row does nothing.  Let
    [Math.round(itemHeight * k / itemHeight)] be [k] and let
    [k * itemHeight] be [===] the offset [itemHeight * k].  When the
    momentum of that scroll ends at [itemHeight * k], its handler coming
    from a render outside a drag and with [isScrollTo] clear, row [k] is
    selected, [onValueChange] gets row [k]'s item unless that row was
    selected already, and no further scroll is issued. *)
Theorem press_then_momentum_selects_the_row :
  forall (T : Type) (env : Env) (p : Props T) (w : World T)
         (k : nat) (item : T),
    let target := js_mul (itemHeight p) (num (Z.of_nat k)) in
    Math_round (js_div target (itemHeight p)) = num (Z.of_nat k) ->
    strict_eq (js_mul (num (Z.of_nat k)) (itemHeight p)) target = true ->
    nth_error (data p) k = Some item ->
    sView_current env = true ->
    isScrollTo (state w) = false ->
    dragStarted (state w) = false ->
    let r := Part000.step env p w (MomentumScrollEnd (scroll_at target)) in
    Part000.step env p w (Press k) = (w, [ScrollTo target (Some true)])
    /\ (forall j : nat,
           nth_error (data p) j = None ->
           Part000.step env p w (Press j) = (w, []))
    /\ scroll_commands (snd r) = []
    /\ strict_eq (selectedIndex (state (fst r))) (num (Z.of_nat k)) = true
    /\ value_changes (snd r)
       = if strict_eq (selectedIndex (state w)) (num (Z.of_nat k)) then []
         else if P.onValueChange p
              then [(Some item, num (Z.of_nat k))] else [].
Proof.
  intros T env p w k item target Hr Hs Hitem Href Hi Hd r.
  assert (Hpress : forall j : nat,
             Part000.step env p w (Press j)
             = match nth_error (data p) j with
               | Some _ =>
                   (w, Part000.scrollToIndex env p (num (Z.of_nat j)) true)
               | None => (w, [])
               end).
  { intros j. simpl.
    rewrite (@nth_error_map_from _ (Part000.renderItem p (state w))).
    destruct (nth_error (data p) j); reflexivity. }
  split; [|split].
  - rewrite Hpress, Hitem. unfold Part000.scrollToIndex, sView_scrollTo.
    rewrite Href. reflexivity.
  - intros j Hj. rewrite Hpress, Hj. reflexivity.
  - assert (Hstep : r = commit w
                          (scrollFix_of Newer env p (state w)
                             (setMomentumStarted false (state w))
                             (scroll_at target))).
    { unfold r. simpl. unfold Part000.onMomentumScrollEnd.
      rewrite Hi, Hd. reflexivity. }
    rewrite Hstep, scrollFix_at. cbv zeta.
    rewrite Hr, Hs, array_get_nat, Hitem. cbn [negb andb].
    unfold commit, p_onValueChange. cbn [fst snd state app].
    destruct (strict_eq (selectedIndex (state w)) (num (Z.of_nat k))) eqn:E;
      cbn [negb].
    + repeat split. exact E.
    + repeat split.
      * destruct (P.onValueChange p); reflexivity.
      * apply Qeq_bool_refl.
      * destruct (P.onValueChange p); reflexivity.
Qed.

(** The third letter is pressed; the scroll it starts ends at 60; ["c"] is
    reported. *)
Lemma press_then_momentum_selects_the_row_witness :
  Part000.step iphone letters (mount letters) (Press 2)
  = (mount letters, [ScrollTo (num 60) (Some true)])
  /\ value_changes
       (snd (Part000.step iphone letters (mount letters)
               (MomentumScrollEnd (scroll_at (num 60)))))
     = [(Some "c"%string, num 2)].
Proof.
  pose proof (@press_then_momentum_selects_the_row string iphone letters
                (mount letters) 2 "c"%string
                eq_refl eq_refl eq_refl eq_refl eq_refl eq_refl)
    as [Hp [_ [_ [_ Hv]]]].
  split; [exact Hp | exact Hv].
Defined.

(* ================================================================== *)
(** ** Further facts: the two revisions, run against each other *)
(* ================================================================== *)

Lemma has_offset_fields (e : ScrollEvent) :
  has_offset e = true ->
  exists (c : E.NativeScrollPoint) (y0 : number),
    E.contentOffset (E.nativeEvent e) = Some c /\ E.y c = Some y0.
Proof.
  unfold has_offset.
  destruct (E.contentOffset (E.nativeEvent e)) as [c|]; [|discriminate].
  destruct (E.y c) as [y0|] eqn:Ey; [|discriminate].
  intros _. exists c, y0. split; [reflexivity | exact Ey].
Qed.

Lemma scrollFix_agree_on_typed (T : Type) (env : Env) (p : Props T)
  (rendered live : State) (e : ScrollEvent) :
  has_offset e = true ->
  Part000.scrollFix env p rendered live e true
  = Index.scrollFix env p rendered live e.
Proof.
  intros H. destruct (has_offset_fields e H) as [c [y0 [Hc Hy]]].
  apply scrollFix_true_is_older with (c := c) (y0 := y0); assumption.
Qed.

Lemma Forall_cancel (T : Type) (P : TimerId * TimerCallback T -> Prop)
  (id : TimerId) (l : list (TimerId * TimerCallback T)) :
  Forall P l -> Forall P (cancel id l).
Proof.
  intros H. unfold cancel. apply Forall_forall. intros x Hx.
  apply filter_In in Hx. destruct Hx as [Hx _].
  rewrite Forall_forall in H. apply H. exact Hx.
Qed.

(** On a common input the newer step is the older step, and the pending
    callbacks keep holding typed events. *)
Lemma steps_agree (T : Type) (env : Env) (p : Props T) (w : World T)
  (ev : Event) :
  common_input (p, ev) = true ->
  offsets_ok w ->
  Part000.step env p w ev = Index.step env p w ev
  /\ offsets_ok (fst (Index.step env p w ev)).
Proof.
  intros Hin Hok. unfold offsets_ok in *.
  destruct ev as [ | | e | | e | e | i | id]; simpl in Hin;
    try discriminate.
  - split; [reflexivity|].
    simpl. unfold Index.initialize. destruct (initialized w); exact Hok.
  - split; [reflexivity|].
    simpl. destruct (timer (state w)); simpl;
      [apply Forall_cancel|]; exact Hok.
  - split; [reflexivity|].
    simpl. rewrite host_effects_app.
    destruct (timer (state w)); simpl; apply Forall_app; split;
      try (apply Forall_cancel); try exact Hok;
      constructor; [exact Hin | constructor | exact Hin | constructor].
  - split; [reflexivity|].
    simpl. destruct (timer (state w)); simpl;
      [apply Forall_cancel|]; exact Hok.
  - assert (E : Part000.onMomentumScrollEnd env p (state w) e
                = Index.onMomentumScrollEnd env p (state w) e).
    { unfold Part000.onMomentumScrollEnd, Index.onMomentumScrollEnd.
      rewrite scrollFix_agree_on_typed by exact Hin. reflexivity. }
    split; [simpl; rewrite E; reflexivity|].
    destruct (onMomentumScrollEnd_frame Older env p (state w) e)
      as [Hf _].
    change (fst (Index.step env p w (MomentumScrollEnd e)))
      with (fst (commit w (Index.onMomentumScrollEnd env p (state w) e))).
    rewrite (commit_without_timers w
               (Index.onMomentumScrollEnd env p (state w) e) Hf).
    exact Hok.
  - apply negb_true_iff in Hin. cbn [fst] in Hin. simpl. rewrite Hin.
    split; [reflexivity | exact Hok].
  - simpl. destruct (find_timer id (pending (host w))) as [cb|] eqn:Hcb;
      [|split; [reflexivity | exact Hok]].
    assert (Hcbok : has_offset (captured_event cb) = true).
    { rewrite Forall_forall in Hok.
      apply (Hok (id, cb)). apply find_timer_in. exact Hcb. }
    assert (E : Part000.timeout_callback env cb (state w)
                = Index.timeout_callback env cb (state w)).
    { unfold Part000.timeout_callback, Index.timeout_callback.
      rewrite scrollFix_agree_on_typed by exact Hcbok. reflexivity. }
    split; [rewrite E; reflexivity|].
    destruct (timeout_callback_frame Older env cb (state w)) as [Hf _].
    rewrite (commit_without_timers (fired w id)
               (Index.timeout_callback env cb (state w)) Hf).
    simpl. apply Forall_cancel. exact Hok.
Qed.

(** X17.  The newer revision is the older one wherever its additions stay
    out.  On every run of events in which no row is pressed, no [onScroll]
    is delivered (none happens, or [changeValueWhileDragging] is false at
    the time) and the scroll events carry their content offset, both
    revisions go through the same worlds and issue the same effects in the
    same order, from the mount on. *)
Theorem newer_revision_runs_like_the_older :
  forall (T : Type) (env : Env) (p0 : Props T)
         (evs : list (Props T * Event)),
    Forall (fun pe => common_input pe = true) evs ->
    Part000.run env (mount p0) evs = Index.run env (mount p0) evs.
Proof.
  intros T env p0 evs Hevs.
  assert (H : forall w : World T,
             offsets_ok w ->
             Part000.run env w evs = Index.run env w evs).
  { induction Hevs as [|[p ev] rest Hin Hrest IH]; intros w Hok;
      [reflexivity|].
    destruct (@steps_agree T env p w ev Hin Hok) as [Hstep Hok1].
    simpl. rewrite Hstep.
    destruct (Index.step env p w ev) as [w1 fx1]. simpl in Hok1.
    rewrite (IH w1 Hok1). reflexivity. }
  apply H. constructor.
Qed.

(** A drag, a release, a momentum and its end, with [onScroll] events all
    along and [changeValueWhileDragging] false. *)
Lemma newer_revision_runs_like_the_older_witness :
  Part000.run iphone (mount letters_quiet)
    [(letters_quiet, RunEffect);
     (letters_quiet, ScrollBeginDrag);
     (letters_quiet, Scroll (scroll_at (num 25)));
     (letters_quiet, ScrollEndDrag (scroll_at (num 40)));
     (letters_quiet, MomentumScrollBegin);
     (letters_quiet, Scroll (scroll_at (num 70)));
     (letters_quiet, MomentumScrollEnd (scroll_at (num 80)))]
  = Index.run iphone (mount letters_quiet)
      [(letters_quiet, RunEffect);
       (letters_quiet, ScrollBeginDrag);
       (letters_quiet, Scroll (scroll_at (num 25)));
       (letters_quiet, ScrollEndDrag (scroll_at (num 40)));
       (letters_quiet, MomentumScrollBegin);
       (letters_quiet, Scroll (scroll_at (num 70)));
       (letters_quiet, MomentumScrollEnd (scroll_at (num 80)))].
Proof.
  apply newer_revision_runs_like_the_older.
  repeat constructor.
Defined.
